(** * auth-api-starter: a shallow embedding of the credential lifecycle

    The development follows the repository file by file:

    - [JsString]: the JavaScript string primitives the handlers rely on
      ([toLowerCase], [startsWith], [split], truthiness) and a regular
      expression matcher for the two regex literals of the code base;
    - [Jwt] (src/utils/jwt.js): [parseDuration], [getRefreshTokenExpiry],
      [generateAccessToken], [verifyAccessToken];
    - [Prisma]: the two tables the code talks to, with the client calls the
      handlers issue (findUnique, create, delete, deleteMany, $transaction);
    - the controller (src/controllers/authController.js) and the
      authentication middleware (src/middleware/auth.js), written in a small
      state-and-exception monad over the store;
    - [optionalAuth] and the global error handler;
    - the properties of the credential lifecycle, then those of the rest
      of the code: validation, lifetimes, the constraints of the schema,
      round trips between the handlers.

    Strings are sequences of code units below 256 (Rocq's [string]); dates are
    milliseconds since the epoch, in [Z]; JavaScript numbers are modelled by
    exact integers, which agrees with the source for every value up to 2^53. *)

From Stdlib Require Import String Ascii List ZArith Bool Arith Lia.
Import ListNotations.
Local Open Scope string_scope.
Set Warnings "-register-all".

(* ===================================================================== *)
(** * JavaScript strings *)
(* ===================================================================== *)

Module JsString.

(** A request field is either absent ([undefined]) or a string. *)
Definition field := option string.

(** [!x] is true for [undefined] and for the empty string. *)
Definition truthy (x : field) : bool :=
  match x with
  | None => false
  | Some EmptyString => false
  | Some _ => true
  end.

(** The string held by a truthy field. *)
Definition str (x : field) : string :=
  match x with
  | Some s => s
  | None => EmptyString
  end.

(** [x || null] *)
Definition or_null (x : field) : field :=
  if truthy x then x else None.

Definition code (c : ascii) : nat := nat_of_ascii c.

(** [String.prototype.toLowerCase] on code units below 256: A-Z and the
    Latin-1 capitals U+00C0..U+00DE (U+00D7, the multiplication sign,
    excepted) move up by 32. *)
Definition lower_ascii (c : ascii) : ascii :=
  let n := code c in
  if (((65 <=? n) && (n <=? 90))
      || ((192 <=? n) && (n <=? 222) && negb (n =? 215)))%nat
  then ascii_of_nat (n + 32)
  else c.

Fixpoint toLowerCase (s : string) : string :=
  match s with
  | EmptyString => EmptyString
  | String c s' => String (lower_ascii c) (toLowerCase s')
  end.

(** [s.startsWith(p)] *)
Fixpoint startsWith (s p : string) {struct p} : bool :=
  match p with
  | EmptyString => true
  | String b p' =>
      match s with
      | EmptyString => false
      | String a s' => Ascii.eqb a b && startsWith s' p'
      end
  end.

(** [s.split(sep)] for a one-character separator: the pieces between the
    separators, empty pieces included. *)
Fixpoint split_acc (sep : ascii) (s : string) (piece : string) : list string :=
  match s with
  | EmptyString => [piece]
  | String c s' =>
      if Ascii.eqb c sep
      then piece :: split_acc sep s' EmptyString
      else split_acc sep s' (piece ++ String c EmptyString)
  end.

Definition split (sep : ascii) (s : string) : list string :=
  split_acc sep s EmptyString.

(** [xs[i]]: [undefined] out of range. *)
Definition index (xs : list string) (i : nat) : field := nth_error xs i.

(** ** Regular expressions

    The regex literals of the code base are anchored at both ends and use
    character classes, concatenation and [+] only. [test] decides a full
    match by Brzozowski derivatives. *)

Inductive regex : Type :=
| Void : regex
| Eps : regex
| Class : (ascii -> bool) -> regex
| Seq : regex -> regex -> regex
| Alt : regex -> regex -> regex
| Star : regex -> regex.

Definition Plus (r : regex) : regex := Seq r (Star r).

Fixpoint nullable (r : regex) : bool :=
  match r with
  | Void => false
  | Eps => true
  | Class _ => false
  | Seq r1 r2 => nullable r1 && nullable r2
  | Alt r1 r2 => nullable r1 || nullable r2
  | Star _ => true
  end.

Fixpoint deriv (c : ascii) (r : regex) : regex :=
  match r with
  | Void => Void
  | Eps => Void
  | Class p => if p c then Eps else Void
  | Seq r1 r2 =>
      if nullable r1
      then Alt (Seq (deriv c r1) r2) (deriv c r2)
      else Seq (deriv c r1) r2
  | Alt r1 r2 => Alt (deriv c r1) (deriv c r2)
  | Star r1 => Seq (deriv c r1) (Star r1)
  end.

(** [/^r$/.test(s)] *)
Fixpoint test (r : regex) (s : string) : bool :=
  match s with
  | EmptyString => nullable r
  | String c s' => test (deriv c r) s'
  end.

(** The language of a regex, to state what [test] decides. *)
Inductive lang : regex -> string -> Prop :=
| L_eps : lang Eps EmptyString
| L_class p c : p c = true -> lang (Class p) (String c EmptyString)
| L_seq r1 r2 s1 s2 : lang r1 s1 -> lang r2 s2 -> lang (Seq r1 r2) (s1 ++ s2)
| L_alt_l r1 r2 s : lang r1 s -> lang (Alt r1 r2) s
| L_alt_r r1 r2 s : lang r2 s -> lang (Alt r1 r2) s
| L_star_nil r : lang (Star r) EmptyString
| L_star_cons r c s1 s2 :
    lang r (String c s1) -> lang (Star r) s2 ->
    lang (Star r) (String c s1 ++ s2).

(** Character classes. [\s] below 256: tab, line feed, vertical tab, form
    feed, carriage return, space and the no-break space. *)
Definition is_space (c : ascii) : bool :=
  let n := code c in
  (((9 <=? n) && (n <=? 13)) || (n =? 32) || (n =? 160))%nat.

(** [\d] *)
Definition is_digit (c : ascii) : bool :=
  let n := code c in ((48 <=? n) && (n <=? 57))%nat.

Definition is_char (a : ascii) (c : ascii) : bool := Ascii.eqb c a.

(** [[^\s@]] *)
Definition not_space_at (c : ascii) : bool :=
  negb (is_space c) && negb (is_char "@" c).

(** [[smhd]] *)
Definition is_unit (c : ascii) : bool :=
  is_char "s" c || is_char "m" c || is_char "h" c || is_char "d" c.

(** [parseInt(s, 10)] on a string of decimal digits. *)
Definition digit_value (c : ascii) : Z := Z.of_nat (code c) - 48.

Fixpoint parseInt_acc (s : string) (acc : Z) : Z :=
  match s with
  | EmptyString => acc
  | String c s' => parseInt_acc s' (10 * acc + digit_value c)
  end.

Definition parseInt (s : string) : Z := parseInt_acc s 0.

(** The longest prefix of [s] in the class [p], and what follows it: the
    text a greedy [p+] group captures when the next class is disjoint
    from [p]. *)
Fixpoint span (p : ascii -> bool) (s : string) : string * string :=
  match s with
  | EmptyString => (EmptyString, EmptyString)
  | String c s' =>
      if p c
      then let (a, b) := span p s' in (String c a, b)
      else (EmptyString, s)
  end.

(** Every character of [s] is in the class [p]. *)
Fixpoint all_chars (p : ascii -> bool) (s : string) : bool :=
  match s with
  | EmptyString => true
  | String c s' => p c && all_chars p s'
  end.

(** Any character but the space [split] cuts at. *)
Definition not_space (c : ascii) : bool := negb (Ascii.eqb c " ").

End JsString.

Import JsString.

(* ===================================================================== *)
(** * Values that cross the boundary *)
(* ===================================================================== *)

(** What a handler can throw: the Prisma client's known request errors, by
    code (P2002 unique constraint, P2003 foreign key, P2025 record not
    found), the errors of jsonwebtoken, by name, and a TypeError. The
    store of the model is reachable and is given well-formed rows: a lost
    connection, an engine failure or a refused argument (an Invalid Date)
    is outside it, and no theorem below says which errors the real store
    can raise. *)
Inductive JsError : Type :=
| PrismaError (code : string)
| TokenExpiredError
| JsonWebTokenError
| NotBeforeError
| TypeError.

Inductive result (A : Type) : Type :=
| Ok (a : A)
| Throw (e : JsError).
Arguments Ok {A} a.
Arguments Throw {A} e.

(** JSON-like values: what a response body is made of. *)
Inductive JsValue : Type :=
| JsNull
| JsBool (b : bool)
| JsString (s : string)
| JsDate (ms : Z)
| JsObject (fields : list (string * JsValue)).

Definition js_field (x : field) : JsValue :=
  match x with
  | Some s => JsString s
  | None => JsNull
  end.

(** The two helpers of utils/response.js, which is not among the
    sources: a response is the call that makes it, with its arguments
    ([statusCode] of [successResponse] is optional and [login] leaves it
    out). *)
Inductive Response : Type :=
| successResponse (data : JsValue) (message : string) (statusCode : option Z)
| errorResponse (message : string) (statusCode : Z).

(** [req.user], as the middleware sets it. *)
Record Identity : Type := { id : string; email : string }.

(** How a handler ends: a response sent, [next()] with [req.user] set, or
    [next(error)]. *)
Inductive Outcome : Type :=
| Sent (r : Response)
| Next (user : Identity)
| NextError (e : JsError).

(** The error kinds of the specification, and the response each one is in
    the code. *)
Inductive ErrorKind : Type :=
| InvalidInput
| DuplicateEmail
| InvalidCredentials
| AccountDisabled
| ExpiredCredential
| MalformedCredential
| MissingCredential
| NotFound.

Definition error_table : list (string * Z * ErrorKind) :=
  [ ("Email and password are required", 400%Z, InvalidInput);
    ("Invalid email format", 400%Z, InvalidInput);
    ("Password must be at least 8 characters long", 400%Z, InvalidInput);
    ("Refresh token is required", 400%Z, InvalidInput);
    ("User with this email already exists", 409%Z, DuplicateEmail);
    ("Invalid email or password", 401%Z, InvalidCredentials);
    ("Invalid refresh token", 401%Z, InvalidCredentials);
    ("Account is deactivated", 403%Z, AccountDisabled);
    ("Refresh token has expired", 401%Z, ExpiredCredential);
    ("Access token has expired", 401%Z, ExpiredCredential);
    ("Invalid token format. Use: Bearer <token>", 401%Z, MalformedCredential);
    ("Invalid access token", 401%Z, MalformedCredential);
    ("Access token is required", 401%Z, MissingCredential);
    ("User not found", 404%Z, NotFound) ].

Fixpoint lookup_kind (message : string) (statusCode : Z)
    (t : list (string * Z * ErrorKind)) : option ErrorKind :=
  match t with
  | [] => None
  | (m, c, k) :: t' =>
      if String.eqb m message && Z.eqb c statusCode then Some k
      else lookup_kind message statusCode t'
  end.

Definition error_kind (o : Outcome) : option ErrorKind :=
  match o with
  | Sent (errorResponse message statusCode) =>
      lookup_kind message statusCode error_table
  | _ => None
  end.

Definition is_success (o : Outcome) : bool :=
  match o with
  | Sent (successResponse _ _ _) => true
  | _ => false
  end.

(* ===================================================================== *)
(** * src/utils/jwt.js *)
(* ===================================================================== *)

Module Jwt.

(** [config.jwt] *)
Record Config : Type := {
  secret : string;
  expiresIn : string;
  refreshExpiresIn : string
}.

(** What [jwt.verify] gives: the decoded payload, or an error thrown. *)
Inductive Verified : Type :=
| Decoded (payload : Identity)
| Thrown (e : JsError).

(** The jsonwebtoken package: [sign payload secret expiresIn] at a clock
    reading, [verify token secret] at a clock reading. *)
Record Lib : Type := {
  sign : Identity -> string -> string -> Z -> string;
  verify : string -> string -> Z -> Verified
}.

Definition generateAccessToken (cfg : Config) (jwt : Lib) (now : Z)
    (payload : Identity) : string :=
  sign jwt payload (secret cfg) (expiresIn cfg) now.

Definition verifyAccessToken (cfg : Config) (jwt : Lib) (now : Z)
    (token : string) : Verified :=
  verify jwt token (secret cfg) now.

(** The [units] object of [parseDuration]. *)
Definition units : list (ascii * Z) :=
  [ ("s"%char, 1000);
    ("m"%char, 60 * 1000);
    ("h"%char, 60 * 60 * 1000);
    ("d"%char, 24 * 60 * 60 * 1000) ]%Z.

Fixpoint units_get (t : list (ascii * Z)) (unit : ascii) : option Z :=
  match t with
  | [] => None
  | (k, v) :: t' => if Ascii.eqb k unit then Some v else units_get t' unit
  end.

(** [/^(\d+)([smhd])$/] *)
Definition durationRegex : regex :=
  Seq (Plus (Class is_digit)) (Class is_unit).

(** [duration.match(durationRegex)]: the two groups of a match. *)
Definition duration_match (duration : string) : option (string * ascii) :=
  if test durationRegex duration then
    let (digits, rest) := span is_digit duration in
    match rest with
    | String unit _ => Some (digits, unit)
    | EmptyString => None
    end
  else None.

Definition parseDuration (duration : string) : Z :=
  match duration_match duration with
  | None => 7 * 24 * 60 * 60 * 1000
  | Some (digits, unit) =>
      let value := parseInt digits in
      match units_get units unit with
      | Some factor => value * factor
      | None => 0 (* not reached: the regex lets s, m, h, d through only *)
      end
  end.

(** [new Date(Date.now() + duration)], as its time value in
    milliseconds. The source's Date holds this value as long as it lies
    within 8.64e15 ms of the epoch; past that it is an Invalid Date. *)
Definition getRefreshTokenExpiry (cfg : Config) (now : Z) : Z :=
  let duration := parseDuration (refreshExpiresIn cfg) in
  (now + duration)%Z.

End Jwt.

(* ===================================================================== *)
(** * The store: the Prisma client over the User and RefreshToken tables *)
(* ===================================================================== *)

Module Prisma.

(** Modelled from the spec: prisma/schema.prisma is not among the
    sources. The columns are those of the data model (Account and
    LongLivedToken) under the names the controller uses. *)
Record User : Type := {
  u_id : string;
  u_email : string;
  u_password : string;
  u_firstName : field;
  u_lastName : field;
  u_isActive : bool;
  u_createdAt : Z;
  u_updatedAt : Z
}.

Record RefreshToken : Type := {
  rt_id : string;
  rt_token : string;
  rt_userId : string;
  rt_expiresAt : Z;
  rt_createdAt : Z
}.

Record DB : Type := {
  users : list User;
  refreshTokens : list RefreshToken
}.

Definition empty : DB := {| users := []; refreshTokens := [] |}.

(** A User row as the object the client returns, and [select]. *)
Definition user_object (u : User) : list (string * JsValue) :=
  [ ("id", JsString (u_id u));
    ("email", JsString (u_email u));
    ("password", JsString (u_password u));
    ("firstName", js_field (u_firstName u));
    ("lastName", js_field (u_lastName u));
    ("isActive", JsBool (u_isActive u));
    ("createdAt", JsDate (u_createdAt u));
    ("updatedAt", JsDate (u_updatedAt u)) ].

Definition mem (k : string) (ks : list string) : bool :=
  existsb (String.eqb k) ks.

Definition select (keys : list string) (u : User) : JsValue :=
  JsObject (filter (fun kv => mem (fst kv) keys) (user_object u)).

(** ** Reads *)

Definition user_by_email (d : DB) (email : string) : option User :=
  find (fun u => String.eqb (u_email u) email) (users d).

Definition user_by_id (d : DB) (id : string) : option User :=
  find (fun u => String.eqb (u_id u) id) (users d).

Definition token_by_value (d : DB) (token : string) : option RefreshToken :=
  find (fun t => String.eqb (rt_token t) token) (refreshTokens d).

(** ** Writes

    Modelled from the spec: the constraints of the missing schema are the
    ones the data model states (ids are unique, an account's email is
    unique, a token value is unique across all records, a token refers to
    its owner). [create] fails with P2002 when the primary key ([id]) or a
    unique column (User.email, RefreshToken.token) is taken, and a
    RefreshToken needs its owner (P2003); [delete] fails with P2025 when no
    row has the id; [deleteMany] never fails. *)

Definition P2002 : JsError := PrismaError "P2002".
Definition P2003 : JsError := PrismaError "P2003".
Definition P2025 : JsError := PrismaError "P2025".

Definition user_create (d : DB) (u : User) : result DB :=
  if existsb (fun v => String.eqb (u_id v) (u_id u)
                       || String.eqb (u_email v) (u_email u)) (users d)
  then Throw P2002
  else Ok {| users := users d ++ [u]; refreshTokens := refreshTokens d |}.

Definition token_create (d : DB) (t : RefreshToken) : result DB :=
  if existsb (fun v => String.eqb (rt_id v) (rt_id t)
                       || String.eqb (rt_token v) (rt_token t))
             (refreshTokens d)
  then Throw P2002
  else if negb (existsb (fun u => String.eqb (u_id u) (rt_userId t)) (users d))
  then Throw P2003
  else Ok {| users := users d; refreshTokens := refreshTokens d ++ [t] |}.

Definition token_delete (d : DB) (id : string) : result DB :=
  if existsb (fun v => String.eqb (rt_id v) id) (refreshTokens d)
  then Ok {| users := users d;
             refreshTokens :=
               filter (fun v => negb (String.eqb (rt_id v) id))
                      (refreshTokens d) |}
  else Throw P2025.

Definition token_deleteMany_token (d : DB) (token : string) : DB :=
  {| users := users d;
     refreshTokens :=
       filter (fun v => negb (String.eqb (rt_token v) token))
              (refreshTokens d) |}.

Definition token_deleteMany_user (d : DB) (userId : string) : DB :=
  {| users := users d;
     refreshTokens :=
       filter (fun v => negb (String.eqb (rt_userId v) userId))
              (refreshTokens d) |}.

(** The writes a [$transaction] array can hold here. *)
Inductive Write : Type :=
| DeleteToken (id : string)
| CreateToken (row : RefreshToken).

Definition apply_write (d : DB) (w : Write) : result DB :=
  match w with
  | DeleteToken id => token_delete d id
  | CreateToken row => token_create d row
  end.

(** The writes in order, each on the result of the one before; the first
    failure ends the run. *)
Fixpoint apply_writes (d : DB) (ws : list Write) : result DB :=
  match ws with
  | [] => Ok d
  | w :: ws' =>
      match apply_write d w with
      | Ok d' => apply_writes d' ws'
      | Throw e => Throw e
      end
  end.

(** ** The client: every call is logged, with its key argument *)

Inductive Call : Type :=
| UserFindUniqueByEmail (email : string)
| UserFindUniqueById (id : string)
| UserCreate (email : string)
| RefreshTokenCreate (token userId : string)
| RefreshTokenFindUnique (token : string)
| RefreshTokenDelete (id : string)
| RefreshTokenDeleteManyByToken (token : string)
| RefreshTokenDeleteManyByUser (userId : string)
| Transaction (writes : list Write).

Record World : Type := {
  db : DB;
  log : list Call
}.

(** A computation over the store that may throw. What was written before a
    throw stays written. *)
Definition M (A : Type) : Type := World -> World * result A.

Definition ret {A} (a : A) : M A := fun w => (w, Ok a).

Definition bind {A B} (m : M A) (k : A -> M B) : M B :=
  fun w =>
    match m w with
    | (w', Ok a) => k a w'
    | (w', Throw e) => (w', Throw e)
    end.

Definition logged (c : Call) (w : World) : World :=
  {| db := db w; log := log w ++ [c] |}.

Definition read {A} (c : Call) (f : DB -> A) : M A :=
  fun w => (logged c w, Ok (f (db w))).

Definition write (c : Call) (f : DB -> result DB) : M unit :=
  fun w =>
    match f (db w) with
    | Ok d' => ({| db := d'; log := log w ++ [c] |}, Ok tt)
    | Throw e => (logged c w, Throw e)
    end.

(** [prisma.$transaction([...])]: all the writes, or none of them. *)
Definition transaction (ws : list Write) : M unit :=
  write (Transaction ws) (fun d => apply_writes d ws).

End Prisma.

Import Prisma.

Notation "x <- c ;; k" := (bind c (fun x => k))
  (at level 61, c at next level, right associativity).

(* ===================================================================== *)
(** * What a request brings from outside the code *)
(* ===================================================================== *)

(** The collaborators of the handlers: the configuration, jsonwebtoken,
    bcryptjs ([hash password salt], [compare password hash]) and the
    default the schema gives to User.isActive. *)
Record Deps : Type := {
  config : Jwt.Config;
  jsonwebtoken : Jwt.Lib;
  bcrypt_hash : string -> string -> string;
  bcrypt_compare : string -> string -> bool;
  isActive_default : bool
}.

(** What one request draws from its environment: the clock (one reading
    serves the whole request: [new Date()], [Date.now()] and the store's
    timestamps), [uuidv4()], [bcrypt.genSalt(12)], and the ids the store
    gives to the rows it creates. *)
Record Env : Type := {
  now : Z;
  uuid : string;
  salt : string;
  user_id : string;
  token_id : string
}.

(** The row [prisma.refreshToken.create] inserts. *)
Definition token_row (e : Env) (token userId : string) (expiresAt : Z)
    : RefreshToken :=
  {| rt_id := token_id e;
     rt_token := token;
     rt_userId := userId;
     rt_expiresAt := expiresAt;
     rt_createdAt := now e |}.

(** The row [prisma.user.create] inserts. *)
Definition user_row (D : Deps) (e : Env) (email password : string)
    (firstName lastName : field) : User :=
  {| u_id := user_id e;
     u_email := email;
     u_password := password;
     u_firstName := firstName;
     u_lastName := lastName;
     u_isActive := isActive_default D;
     u_createdAt := now e;
     u_updatedAt := now e |}.

Definition prisma_user_findUnique_email (email : string) : M (option User) :=
  read (UserFindUniqueByEmail email) (fun d => user_by_email d email).

Definition prisma_user_findUnique_id (id : string) : M (option User) :=
  read (UserFindUniqueById id) (fun d => user_by_id d id).

(** [prisma.user.create]: the handler reads the created row through
    [select], which [register] applies to the row it inserted. *)
Definition prisma_user_create (row : User) : M unit :=
  write (UserCreate (u_email row)) (fun d => user_create d row).

Definition prisma_refreshToken_create (row : RefreshToken) : M unit :=
  write (RefreshTokenCreate (rt_token row) (rt_userId row))
        (fun d => token_create d row).

(** [findUnique({ where: { token }, include: { user: true } })] *)
Definition prisma_refreshToken_findUnique (token : string)
    : M (option (RefreshToken * option User)) :=
  read (RefreshTokenFindUnique token)
       (fun d =>
          match token_by_value d token with
          | Some t => Some (t, user_by_id d (rt_userId t))
          | None => None
          end).

Definition prisma_refreshToken_delete (id : string) : M unit :=
  write (RefreshTokenDelete id) (fun d => token_delete d id).

Definition prisma_refreshToken_deleteMany_token (token : string) : M unit :=
  write (RefreshTokenDeleteManyByToken token)
        (fun d => Ok (token_deleteMany_token d token)).

Definition prisma_refreshToken_deleteMany_user (userId : string) : M unit :=
  write (RefreshTokenDeleteManyByUser userId)
        (fun d => Ok (token_deleteMany_user d userId)).

(** [try { body } catch (error) { next(error) }] *)
Definition Handler : Type := World -> World * Outcome.

Definition try_next (body : M Response) : Handler :=
  fun w =>
    match body w with
    | (w', Ok r) => (w', Sent r)
    | (w', Throw e) => (w', NextError e)
    end.

(* ===================================================================== *)
(** * src/controllers/authController.js *)
(* ===================================================================== *)

(** [/^[^\s@]+@[^\s@]+\.[^\s@]+$/] *)
Definition emailRegex : regex :=
  Seq (Plus (Class not_space_at))
      (Seq (Class (is_char "@"))
           (Seq (Plus (Class not_space_at))
                (Seq (Class (is_char "."))
                     (Plus (Class not_space_at))))).

Definition public_user_keys : list string :=
  ["id"; "email"; "firstName"; "lastName"; "isActive"; "createdAt"].

Definition auth_data (user : JsValue) (accessToken refreshToken : string)
    : JsValue :=
  JsObject [ ("user", user);
             ("accessToken", JsString accessToken);
             ("refreshToken", JsString refreshToken) ].

Definition register (D : Deps) (e : Env)
    (email password firstName lastName : field) : Handler :=
  try_next (
    if negb (truthy email) || negb (truthy password) then
      ret (errorResponse "Email and password are required" 400)
    else if negb (test emailRegex (str email)) then
      ret (errorResponse "Invalid email format" 400)
    else if (String.length (str password) <? 8)%nat then
      ret (errorResponse "Password must be at least 8 characters long" 400)
    else
      existingUser <- prisma_user_findUnique_email (toLowerCase (str email)) ;;
      match existingUser with
      | Some _ =>
          ret (errorResponse "User with this email already exists" 409)
      | None =>
          let hashedPassword := bcrypt_hash D (str password) (salt e) in
          let row := user_row D e (toLowerCase (str email)) hashedPassword
                              (or_null firstName) (or_null lastName) in
          _ <- prisma_user_create row ;;
          let user := select public_user_keys row in
          let accessToken :=
            Jwt.generateAccessToken (config D) (jsonwebtoken D) (now e)
              {| id := u_id row; email := u_email row |} in
          let refreshToken := uuid e in
          _ <- prisma_refreshToken_create
                 (token_row e refreshToken (u_id row)
                    (Jwt.getRefreshTokenExpiry (config D) (now e))) ;;
          ret (successResponse (auth_data user accessToken refreshToken)
                 "User registered successfully" (Some 201%Z))
      end).

Definition login (D : Deps) (e : Env) (email password : field) : Handler :=
  try_next (
    if negb (truthy email) || negb (truthy password) then
      ret (errorResponse "Email and password are required" 400)
    else
      found <- prisma_user_findUnique_email (toLowerCase (str email)) ;;
      match found with
      | None => ret (errorResponse "Invalid email or password" 401)
      | Some user =>
          if negb (u_isActive user) then
            ret (errorResponse "Account is deactivated" 403)
          else if negb (bcrypt_compare D (str password) (u_password user)) then
            ret (errorResponse "Invalid email or password" 401)
          else
            let accessToken :=
              Jwt.generateAccessToken (config D) (jsonwebtoken D) (now e)
                {| id := u_id user; email := u_email user |} in
            let refreshToken := uuid e in
            _ <- prisma_refreshToken_create
                   (token_row e refreshToken (u_id user)
                      (Jwt.getRefreshTokenExpiry (config D) (now e))) ;;
            let userResponse :=
              JsObject [ ("id", JsString (u_id user));
                         ("email", JsString (u_email user));
                         ("firstName", js_field (u_firstName user));
                         ("lastName", js_field (u_lastName user));
                         ("isActive", JsBool (u_isActive user));
                         ("createdAt", JsDate (u_createdAt user)) ] in
            ret (successResponse
                   (auth_data userResponse accessToken refreshToken)
                   "Login successful" None)
      end).

Definition refreshToken (D : Deps) (e : Env) (token : field) : Handler :=
  try_next (
    if negb (truthy token) then
      ret (errorResponse "Refresh token is required" 400)
    else
      storedToken <- prisma_refreshToken_findUnique (str token) ;;
      match storedToken with
      | None => ret (errorResponse "Invalid refresh token" 401)
      | Some (stored, owner) =>
          if (now e >? rt_expiresAt stored)%Z then
            _ <- prisma_refreshToken_delete (rt_id stored) ;;
            ret (errorResponse "Refresh token has expired" 401)
          else
            match owner with
            | None => fun w => (w, Throw TypeError)
            | Some user =>
                if negb (u_isActive user) then
                  ret (errorResponse "Account is deactivated" 403)
                else
                  let accessToken :=
                    Jwt.generateAccessToken (config D) (jsonwebtoken D) (now e)
                      {| id := u_id user; email := u_email user |} in
                  let newRefreshToken := uuid e in
                  let expiresAt :=
                    Jwt.getRefreshTokenExpiry (config D) (now e) in
                  _ <- transaction
                         [ DeleteToken (rt_id stored);
                           CreateToken
                             (token_row e newRefreshToken (u_id user)
                                expiresAt) ] ;;
                  ret (successResponse
                         (JsObject
                            [ ("accessToken", JsString accessToken);
                              ("refreshToken", JsString newRefreshToken) ])
                         "Token refreshed successfully" None)
            end
      end).

Definition logout (token : field) : Handler :=
  try_next (
    if negb (truthy token) then
      ret (errorResponse "Refresh token is required" 400)
    else
      _ <- prisma_refreshToken_deleteMany_token (str token) ;;
      ret (successResponse JsNull "Logged out successfully" None)).

Definition logoutAll (user : Identity) : Handler :=
  try_next (
    let userId := id user in
    _ <- prisma_refreshToken_deleteMany_user userId ;;
    ret (successResponse JsNull
           "Logged out from all devices successfully" None)).

Definition getMe (user : Identity) : Handler :=
  try_next (
    found <- prisma_user_findUnique_id (id user) ;;
    match found with
    | None => ret (errorResponse "User not found" 404)
    | Some row =>
        ret (successResponse
               (JsObject [ ("user",
                            select (public_user_keys ++ ["updatedAt"]) row) ])
               "User profile retrieved" None)
    end).

(* ===================================================================== *)
(** * src/middleware/auth.js *)
(* ===================================================================== *)

Definition authenticate (D : Deps) (e : Env) (authHeader : field) : Handler :=
  fun w =>
    (w,
     if negb (truthy authHeader) then
       Sent (errorResponse "Access token is required" 401)
     else if negb (startsWith (str authHeader) "Bearer ") then
       Sent (errorResponse "Invalid token format. Use: Bearer <token>" 401)
     else
       let token := index (split " " (str authHeader)) 1 in
       if negb (truthy token) then
         Sent (errorResponse "Access token is required" 401)
       else
         match Jwt.verifyAccessToken (config D) (jsonwebtoken D) (now e)
                 (str token) with
         | Jwt.Decoded decoded =>
             Next {| id := id decoded; email := email decoded |}
         | Jwt.Thrown TokenExpiredError =>
             Sent (errorResponse "Access token has expired" 401)
         | Jwt.Thrown JsonWebTokenError =>
             Sent (errorResponse "Invalid access token" 401)
         | Jwt.Thrown _ =>
             Sent (errorResponse "Authentication failed" 401)
         end).

(* ===================================================================== *)
(** * Sessions, constraints and a concrete instance *)
(* ===================================================================== *)

(** The requests the controller serves; [logoutAll] and [getMe] read
    [req.user]. *)
Inductive Request : Type :=
| Register (email password firstName lastName : field)
| Login (email password : field)
| Refresh (token : field)
| Logout (token : field)
| LogoutAll (user : Identity)
| GetMe (user : Identity).

Definition handle (D : Deps) (e : Env) (r : Request) : Handler :=
  match r with
  | Register email password firstName lastName =>
      register D e email password firstName lastName
  | Login email password => login D e email password
  | Refresh token => refreshToken D e token
  | Logout token => logout token
  | LogoutAll user => logoutAll user
  | GetMe user => getMe user
  end.

(** Requests served one after the other, each with its own environment. *)
Fixpoint serve (D : Deps) (session : list (Env * Request)) (w : World)
    : World :=
  match session with
  | [] => w
  | (e, r) :: session' => serve D session' (fst (handle D e r w))
  end.

(** The unique constraint on RefreshToken.token. *)
Definition unique_tokens (d : DB) : Prop :=
  NoDup (map rt_token (refreshTokens d)).

(** No row holds the token value. *)
Definition absent (token : string) (d : DB) : Prop :=
  forall t, In t (refreshTokens d) -> rt_token t <> token.

(** No request of the session draws [token] as its [uuidv4()]. *)
Definition never_draws (token : string) (session : list (Env * Request))
    : Prop :=
  Forall (fun er => uuid (fst er) <> token) session.

(** A property of the store that every write of a request with
    environment [e] keeps: the rows a request inserts into RefreshToken
    carry the token value [uuid e]. *)
Definition stable (P : DB -> Prop) (e : Env) : Prop :=
  (forall d u d', user_create d u = Ok d' -> P d -> P d')
  /\ (forall d row d',
        rt_token row = uuid e -> token_create d row = Ok d' -> P d -> P d')
  /\ (forall d id d', token_delete d id = Ok d' -> P d -> P d')
  /\ (forall d token, P d -> P (token_deleteMany_token d token))
  /\ (forall d userId, P d -> P (token_deleteMany_user d userId)).

(** A duration the regex accepts: digits, at least one, then a unit. *)
Definition well_formed (duration digits : string) (unit : ascii) : Prop :=
  duration = digits ++ String unit ""
  /\ digits <> "" /\ all_chars is_digit digits = true /\ is_unit unit = true.

(** The keys of a value, at every depth. *)
Fixpoint keys_deep (v : JsValue) : list string :=
  match v with
  | JsObject fields =>
      (fix go (fs : list (string * JsValue)) : list string :=
         match fs with
         | [] => []
         | (k, x) :: fs' => k :: (keys_deep x ++ go fs')%list
         end) fields
  | _ => []
  end.

(** The value under a key of an object. *)
Fixpoint get_field (fields : list (string * JsValue)) (k : string)
    : option JsValue :=
  match fields with
  | [] => None
  | (k', x) :: fields' =>
      if String.eqb k' k then Some x else get_field fields' k
  end.

Definition get (v : JsValue) (k : string) : option JsValue :=
  match v with
  | JsObject fields => get_field fields k
  | _ => None
  end.

Definition keys (v : JsValue) : list string :=
  match v with
  | JsObject fields => map fst fields
  | _ => []
  end.

(** The [refreshToken] field of the data of a success response. *)
Definition get_outcome_token (o : Outcome) : option string :=
  match o with
  | Sent (successResponse data _ _) =>
      match get data "refreshToken" with
      | Some (JsString s) => Some s
      | _ => None
      end
  | _ => None
  end.

(** The [user] field of the data of a response. *)
Definition user_of (data : JsValue) : JsValue :=
  match get data "user" with
  | Some user => user
  | None => JsNull
  end.

(** The columns of an account other than the password hash, under the
    names the responses use. *)
Definition public_fields (u : User) : list (string * JsValue) :=
  [ ("id", JsString (u_id u));
    ("email", JsString (u_email u));
    ("firstName", js_field (u_firstName u));
    ("lastName", js_field (u_lastName u));
    ("isActive", JsBool (u_isActive u));
    ("createdAt", JsDate (u_createdAt u)) ].

Definition profile_fields (u : User) : list (string * JsValue) :=
  (public_fields u ++ [("updatedAt", JsDate (u_updatedAt u))])%list.

(** The account with another password hash. *)
Definition with_password (hash : string) (u : User) : User :=
  {| u_id := u_id u;
     u_email := u_email u;
     u_password := hash;
     u_firstName := u_firstName u;
     u_lastName := u_lastName u;
     u_isActive := u_isActive u;
     u_createdAt := u_createdAt u;
     u_updatedAt := u_updatedAt u |}.

(** What [authenticate] does with the result of [verifyAccessToken]: the
    [next()] of the try block and the three branches of its catch. *)
Definition verdict (v : Jwt.Verified) : Outcome :=
  match v with
  | Jwt.Decoded decoded => Next {| id := id decoded; email := email decoded |}
  | Jwt.Thrown TokenExpiredError =>
      Sent (errorResponse "Access token has expired" 401)
  | Jwt.Thrown JsonWebTokenError =>
      Sent (errorResponse "Invalid access token" 401)
  | Jwt.Thrown _ => Sent (errorResponse "Authentication failed" 401)
  end.

(** A toy instance of the collaborators, to run the handlers on: the
    hash of a password is the salt followed by the password, and three
    access tokens are known. *)
Module Toy.

Definition alice : Identity := {| id := "u1"; email := "user@x.com" |}.

Definition jwt : Jwt.Lib :=
  {| Jwt.sign := fun p _ _ _ => "jwt:" ++ id p;
     Jwt.verify := fun token _ _ =>
       if String.eqb token "good" then Jwt.Decoded alice
       else if String.eqb token "old" then Jwt.Thrown TokenExpiredError
       else Jwt.Thrown JsonWebTokenError |}.

Definition deps : Deps :=
  {| config := {| Jwt.secret := "k";
                  Jwt.expiresIn := "15m";
                  Jwt.refreshExpiresIn := "7d" |};
     jsonwebtoken := jwt;
     bcrypt_hash := fun password salt => salt ++ password;
     bcrypt_compare := fun password hash =>
       String.eqb hash ("$2a$12$" ++ password);
     isActive_default := true |}.

Definition env (clock : Z) (n : string) : Env :=
  {| now := clock;
     uuid := "token-" ++ n;
     salt := "$2a$12$";
     user_id := "u" ++ n;
     token_id := "r" ++ n |}.

Definition start : World := {| db := Prisma.empty; log := [] |}.

(** After [user@x.com] registered at time 1000: the store holds the
    account [u1] and the refresh token [token-1]. *)
Definition registered : World :=
  fst (register deps (env 1000 "1")
         (Some "user@x.com") (Some "password1") None None start).

Definition alice_row : User :=
  {| u_id := "u1"; u_email := "user@x.com";
     u_password := "$2a$12$password1";
     u_firstName := None; u_lastName := None; u_isActive := true;
     u_createdAt := 1000; u_updatedAt := 1000 |}.

Definition token1 : RefreshToken :=
  {| rt_id := "r1"; rt_token := "token-1"; rt_userId := "u1";
     rt_expiresAt := 604801000; rt_createdAt := 1000 |}.

(** After a login at time 1500 on top: [token-1] and [token-2] are held. *)
Definition two_devices : World :=
  fst (login deps (env 1500 "2")
         (Some "user@x.com") (Some "password1") registered).

(** The data of the response to that login. *)
Definition login_data : JsValue :=
  JsObject
    [ ("user",
       JsObject
         [ ("id", JsString "u1");
           ("email", JsString "user@x.com");
           ("firstName", JsNull);
           ("lastName", JsNull);
           ("isActive", JsBool true);
           ("createdAt", JsDate 1000) ]);
      ("accessToken", JsString "jwt:u1");
      ("refreshToken", JsString "token-2") ].

(** What a client may do next. *)
Definition session : list (Env * Request) :=
  [ (env 3000 "3", Login (Some "USER@x.com") (Some "password1"));
    (env 4000 "4", Refresh (Some "token-3"));
    (env 4500 "5", Logout (Some "token-4"));
    (env 4600 "6", GetMe alice) ].

End Toy.

(* ===================================================================== *)
(** * More of the code: optionalAuth and the global error handler *)
(* ===================================================================== *)

(** [req.user] after [optionalAuth]: left as the request came, set to
    [null], or set to an identity. *)
Inductive ReqUser : Type :=
| Untouched
| Null
| Identified (user : Identity).

(** src/middleware/auth.js, [optionalAuth]: the try block, its catch, and
    the [next()] that follows both. No response is ever sent. *)
Definition optionalAuth (D : Deps) (e : Env) (authHeader : field)
    : World -> World * ReqUser :=
  fun w =>
    (w,
     if truthy authHeader && startsWith (str authHeader) "Bearer " then
       let token := index (split " " (str authHeader)) 1 in
       match Jwt.verifyAccessToken (config D) (jsonwebtoken D) (now e)
               (str token) with
       | Jwt.Decoded decoded =>
           Identified {| id := id decoded; email := email decoded |}
       | Jwt.Thrown _ => Null
       end
     else Untouched).

(** The identity a downstream handler finds in [req.user], if any. *)
Definition identity_of (u : ReqUser) : option Identity :=
  match u with
  | Identified user => Some user
  | _ => None
  end.

Definition granted (o : Outcome) : option Identity :=
  match o with
  | Next user => Some user
  | _ => None
  end.

(** The fields of an error object the global handler reads. *)
Record ErrorObject : Type := {
  err_statusCode : option Z;
  err_message : field;
  err_code : field;
  err_name : field;
  err_stack : field
}.

(** The JSON body of an error response ([success] is always false);
    [body_stack] is there when the handler sets [response.stack]. *)
Record ErrorBody : Type := {
  body_message : field;
  body_stack : option field
}.

(** [x || d] on an optional number: 0 is falsy. *)
Definition number_or (x : option Z) (d : Z) : Z :=
  match x with
  | Some n => if (n =? 0)%Z then d else n
  | None => d
  end.

Definition field_is (x : field) (s : string) : bool :=
  match x with
  | Some v => String.eqb v s
  | None => false
  end.

(** The middleware [errorHandler] (the error-handling source file):
    the defaults, then the five overrides in the order of the source,
    each on top of the ones before, then the stack in development. The
    result is the status and the body of [res.status(..).json(..)]. *)
Definition errorHandler (nodeEnv : string) (err : ErrorObject)
    : Z * ErrorBody :=
  let statusCode := number_or (err_statusCode err) 500 in
  let message :=
    if truthy (err_message err) then err_message err
    else Some "Internal Server Error" in
  let '(statusCode, message) :=
    if field_is (err_code err) "P2002"
    then (409%Z, Some "A record with this value already exists")
    else (statusCode, message) in
  let '(statusCode, message) :=
    if field_is (err_code err) "P2025"
    then (404%Z, Some "Record not found")
    else (statusCode, message) in
  let '(statusCode, message) :=
    if field_is (err_name err) "ValidationError"
    then (400%Z, err_message err)
    else (statusCode, message) in
  let '(statusCode, message) :=
    if field_is (err_name err) "JsonWebTokenError"
    then (401%Z, Some "Invalid token")
    else (statusCode, message) in
  let '(statusCode, message) :=
    if field_is (err_name err) "TokenExpiredError"
    then (401%Z, Some "Token expired")
    else (statusCode, message) in
  (statusCode,
   {| body_message := message;
      body_stack :=
        if String.eqb nodeEnv "development"
        then Some (err_stack err)
        else None |}).

(** The object a thrown error is, as far as the handler reads it: Prisma's
    known request errors carry their code, the others their name; none
    carries a [statusCode]. The message and the stack are the library's. *)
Definition error_object (message stack : field) (e : JsError)
    : ErrorObject :=
  {| err_statusCode := None;
     err_message := message;
     err_code :=
       match e with
       | PrismaError code => Some code
       | _ => None
       end;
     err_name :=
       Some match e with
            | PrismaError _ => "PrismaClientKnownRequestError"
            | TokenExpiredError => "TokenExpiredError"
            | JsonWebTokenError => "JsonWebTokenError"
            | NotBeforeError => "NotBeforeError"
            | TypeError => "TypeError"
            end;
     err_stack := stack |}.

(* ===================================================================== *)
(** * The constraints of the schema, and the shape of an email *)
(* ===================================================================== *)

Definition unique_token_ids (d : DB) : Prop :=
  NoDup (map rt_id (refreshTokens d)).

Definition unique_emails (d : DB) : Prop :=
  NoDup (map u_email (users d)).

Definition unique_user_ids (d : DB) : Prop :=
  NoDup (map u_id (users d)).

(** Every token row refers to an account. *)
Definition owners_exist (d : DB) : Prop :=
  forall t, In t (refreshTokens d) ->
            exists u, In u (users d) /\ u_id u = rt_userId t.

Definition constraints (d : DB) : Prop :=
  unique_tokens d /\ unique_token_ids d /\ unique_emails d
  /\ unique_user_ids d /\ owners_exist d.

(** Every stored email is in lowercase and passes the regex of
    [register]. *)
Definition normalised (d : DB) : Prop :=
  forall u, In u (users d) ->
            toLowerCase (u_email u) = u_email u
            /\ test emailRegex (u_email u) = true.

(** The id and the token value a request is about to insert are taken by
    no row. *)
Definition fresh_for (e : Env) (d : DB) : Prop :=
  forall t, In t (refreshTokens d) ->
            rt_id t <> token_id e /\ rt_token t <> uuid e.

(** The time values a [Date] can hold: 8.64e15 ms either side of the
    epoch. Past them [new Date(ms)] is an Invalid Date, which the store
    refuses; the model of [getRefreshTokenExpiry] is the source's inside
    this range. *)
Definition valid_date (ms : Z) : Prop :=
  (- 8640000000000000 <= ms <= 8640000000000000)%Z.

(** [l] is [l0] with rows added at the end. *)
Definition extends {A} (l0 l : list A) : Prop :=
  exists more, l = (l0 ++ more)%list.

(** Every character class of the regex gives the same answer on a
    character and on its lowercase. *)
Fixpoint case_blind (r : regex) : Prop :=
  match r with
  | Void => True
  | Eps => True
  | Class p => forall c, p (lower_ascii c) = p c
  | Seq r1 r2 => case_blind r1 /\ case_blind r2
  | Alt r1 r2 => case_blind r1 /\ case_blind r2
  | Star r1 => case_blind r1
  end.

(** A non-empty run of characters other than whitespace and [@]. *)
Definition email_part (s : string) : Prop :=
  s <> "" /\ all_chars not_space_at s = true.

(** [local@domain.tld], each of the three a non-empty run. *)
Definition email_shape (s : string) : Prop :=
  exists local domain tld,
    s = local ++ "@" ++ domain ++ "." ++ tld
    /\ email_part local /\ email_part domain /\ email_part tld.

(** The [accessToken] field of the data of a success response. *)
Definition get_access_token (o : Outcome) : option string :=
  match o with
  | Sent (successResponse data _ _) =>
      match get data "accessToken" with
      | Some (JsString s) => Some s
      | _ => None
      end
  | _ => None
  end.

(** More of the toy world: the account suspended, a request that draws
    a uuid the store already holds, and a jsonwebtoken that signs the
    token the toy verifier knows. *)
Module Scenario.

Definition suspended_row : User :=
  {| u_id := "u1"; u_email := "user@x.com";
     u_password := "$2a$12$password1";
     u_firstName := None; u_lastName := None; u_isActive := false;
     u_createdAt := 1000; u_updatedAt := 1000 |}.

Definition suspended : World :=
  {| db := {| users := [suspended_row]; refreshTokens := [Toy.token1] |};
     log := [] |}.

Definition clashing : Env :=
  {| now := 2000;
     uuid := "token-1";
     salt := "$2a$12$";
     user_id := "u2";
     token_id := "r2" |}.

Definition jwt : Jwt.Lib :=
  {| Jwt.sign := fun _ _ _ _ => "good";
     Jwt.verify := Jwt.verify Toy.jwt |}.

Definition deps : Deps :=
  {| config := config Toy.deps;
     jsonwebtoken := jwt;
     bcrypt_hash := bcrypt_hash Toy.deps;
     bcrypt_compare := bcrypt_compare Toy.deps;
     isActive_default := true |}.

End Scenario.

(* ===================================================================== *)
(** * Facts about strings and the regex matcher *)
(* ===================================================================== *)

Section StringFacts.

Lemma append_nil_r (s : string) : s ++ "" = s.
Proof. induction s as [|c s IH]; simpl; [reflexivity | now rewrite IH]. Qed.

Lemma append_assoc (a b c : string) : (a ++ b) ++ c = a ++ (b ++ c).
Proof. induction a as [|x a IH]; simpl; [reflexivity | now rewrite IH]. Qed.

Lemma append_eq_nil (a b : string) : a ++ b = "" -> a = "" /\ b = "".
Proof. destruct a; simpl; [auto | discriminate]. Qed.

Lemma truthy_Some (s : string) : s <> "" -> truthy (Some s) = true.
Proof. destruct s; [congruence | reflexivity]. Qed.

Lemma nullable_lang (r : regex) : nullable r = true <-> lang r "".
Proof.
  split.
  - induction r; simpl; intros H; try discriminate.
    + constructor.
    + apply andb_true_iff in H as [H1 H2].
      change "" with ("" ++ ""). constructor; auto.
    + apply orb_true_iff in H as [H|H]; [apply L_alt_l | apply L_alt_r]; auto.
    + constructor.
  - intros H. remember "" as s eqn:E.
    induction H; simpl; try discriminate; auto.
    + apply append_eq_nil in E as [-> ->]. now rewrite IHlang1, IHlang2.
    + now rewrite IHlang.
    + rewrite IHlang by assumption. apply orb_true_r.
Qed.

Lemma deriv_sound (c : ascii) (r : regex) :
  forall s, lang (deriv c r) s -> lang r (String c s).
Proof.
  induction r; simpl; intros s H.
  - inversion H.
  - inversion H.
  - destruct (b c) eqn:E; inversion H; subst. now constructor.
  - destruct (nullable r1) eqn:N.
    + inversion H; subst.
      * match goal with K : lang (Seq _ _) _ |- _ => inversion K; subst end.
        change (lang (Seq r1 r2) (String c s1 ++ s2)). constructor; auto.
      * change (lang (Seq r1 r2) ("" ++ String c s)). constructor; auto.
        now apply nullable_lang.
    + inversion H; subst.
      change (lang (Seq r1 r2) (String c s1 ++ s2)). constructor; auto.
  - inversion H; subst; [apply L_alt_l | apply L_alt_r]; auto.
  - inversion H; subst.
    change (lang (Star r) (String c s1 ++ s2)). constructor; auto.
Qed.

Lemma deriv_complete (r : regex) (cs : string) :
  lang r cs -> forall a rest, cs = String a rest -> lang (deriv a r) rest.
Proof.
  induction 1; intros a rest E; simpl; try discriminate.
  - injection E as -> <-. rewrite H. constructor.
  - destruct s1 as [|x s1]; simpl in E.
    + subst s2. assert (N : nullable r1 = true) by now apply nullable_lang.
      rewrite N. apply L_alt_r. now apply IHlang2.
    + injection E as -> <-.
      assert (K : lang (Seq (deriv a r1) r2) (s1 ++ s2))
        by (constructor; auto).
      destruct (nullable r1); [now apply L_alt_l | exact K].
  - apply L_alt_l. now apply IHlang.
  - apply L_alt_r. now apply IHlang.
  - simpl in E. injection E as -> <-. constructor; auto.
Qed.

(** [test] decides the language of the regex. *)
Lemma test_lang (s : string) : forall r, test r s = true <-> lang r s.
Proof.
  induction s as [|c s IH]; intros r; simpl.
  - apply nullable_lang.
  - rewrite IH. split.
    + apply deriv_sound.
    + intros H. now apply (deriv_complete r (String c s)).
Qed.

Lemma star_class (p : ascii -> bool) (s : string) :
  lang (Star (Class p)) s <-> all_chars p s = true.
Proof.
  split.
  - intros H. remember (Star (Class p)) as r eqn:E.
    induction H; try discriminate; [reflexivity|].
    injection E as ->. inversion H; subst. simpl.
    match goal with K : p _ = true |- _ => rewrite K end. auto.
  - induction s as [|c s IH]; simpl; intros H.
    + constructor.
    + apply andb_true_iff in H as [H1 H2].
      change (lang (Star (Class p)) (String c "" ++ s)).
      constructor; [now constructor | auto].
Qed.

Lemma plus_class (p : ascii -> bool) (s : string) :
  lang (Plus (Class p)) s <-> s <> "" /\ all_chars p s = true.
Proof.
  unfold Plus. split.
  - intros H. inversion H; subst.
    match goal with K : lang (Class _) _ |- _ => inversion K; subst end.
    simpl. split; [discriminate|].
    match goal with K : p _ = true |- _ => rewrite K end.
    now apply star_class.
  - intros [N H]. destruct s as [|c s]; [congruence|].
    simpl in H. apply andb_true_iff in H as [H1 H2].
    change (lang (Seq (Class p) (Star (Class p))) (String c "" ++ s)).
    constructor; [now constructor | now apply star_class].
Qed.

Lemma span_class (p : ascii -> bool) (a : string) (c : ascii) (b : string) :
  all_chars p a = true -> p c = false ->
  span p (a ++ String c b) = (a, String c b).
Proof.
  intros H N. induction a as [|x a IH]; simpl in *.
  - now rewrite N.
  - apply andb_true_iff in H as [H1 H2]. rewrite H1, (IH H2). reflexivity.
Qed.

Lemma is_unit_cases (c : ascii) :
  is_unit c = true ->
  c = "s"%char \/ c = "m"%char \/ c = "h"%char \/ c = "d"%char.
Proof.
  unfold is_unit, is_char. intros H.
  repeat (apply orb_true_iff in H as [H|H]);
    apply Ascii.eqb_eq in H; auto.
Qed.

Lemma unit_not_digit (c : ascii) : is_unit c = true -> is_digit c = false.
Proof.
  intros H. destruct (is_unit_cases c H) as [->|[->|[->| ->]]]; reflexivity.
Qed.

(** [parseInt] reads its digits in base ten. *)
Lemma parseInt_acc_snoc (s : string) (c : ascii) :
  forall acc,
    parseInt_acc (s ++ String c "") acc
    = (10 * parseInt_acc s acc + digit_value c)%Z.
Proof.
  induction s as [|x s IH]; intros acc; simpl; [reflexivity | apply IH].
Qed.

End StringFacts.

(* ===================================================================== *)
(** * src/utils/jwt.js: what [parseDuration] computes *)
(* ===================================================================== *)

Section Duration.

Lemma durationRegex_lang (duration : string) :
  lang Jwt.durationRegex duration
  <-> exists digits unit, well_formed duration digits unit.
Proof.
  unfold Jwt.durationRegex, well_formed. split.
  - intros H. inversion H; subst.
    match goal with K : lang (Class _) _ |- _ => inversion K; subst end.
    match goal with
    | K : lang (Plus _) _ |- _ => apply plus_class in K as [N A]
    end.
    eauto 8.
  - intros (digits & unit & -> & N & A & U).
    constructor; [now apply plus_class | now constructor].
Qed.

Lemma duration_match_well_formed (duration digits : string) (unit : ascii) :
  well_formed duration digits unit ->
  Jwt.duration_match duration = Some (digits, unit).
Proof.
  intros W. unfold Jwt.duration_match.
  assert (T : test Jwt.durationRegex duration = true).
  { apply test_lang, durationRegex_lang. eauto. }
  destruct W as (-> & N & A & U). rewrite T.
  rewrite span_class by (auto using unit_not_digit). reflexivity.
Qed.

Lemma duration_match_none (duration : string) :
  (forall digits unit, ~ well_formed duration digits unit) ->
  Jwt.duration_match duration = None.
Proof.
  intros H. unfold Jwt.duration_match.
  destruct (test Jwt.durationRegex duration) eqn:T; [|reflexivity].
  apply test_lang, durationRegex_lang in T as (digits & unit & W).
  now destruct (H digits unit).
Qed.

Lemma units_get_unit (unit : ascii) :
  is_unit unit = true ->
  exists factor, Jwt.units_get Jwt.units unit = Some factor
                 /\ In (unit, factor) Jwt.units.
Proof.
  intros H. destruct (is_unit_cases unit H) as [->|[->|[->| ->]]];
    eexists; (split; [reflexivity|]); simpl; auto.
Qed.

End Duration.

(** C10 (as stated, refuted): the claim sends every string that is not a
    positive integer followed by a unit to 604800000 ms. The string [0d] is
    digits followed by a unit, its integer is 0 and not positive, and
    [parseDuration] returns 0 ms for it, not seven days. *)
Lemma parseDuration_zero_days :
  (forall digits unit,
      "0d" = digits ++ String unit "" -> (parseInt digits <= 0)%Z)
  /\ Jwt.parseDuration "0d" = 0%Z
  /\ Jwt.parseDuration "0d" <> 604800000%Z.
Proof.
  split; [|split; [reflexivity | discriminate]].
  intros digits unit E.
  destruct digits as [|c [|c' rest]]; simpl in E.
  - discriminate.
  - injection E as <- _. vm_compute. discriminate.
  - injection E as _ E. destruct rest; discriminate.
Qed.

(** C10 (amended): a duration made of one or more decimal digits followed
    by one of s, m, h, d yields the integer the digits spell (zero and
    leading zeros included) times the unit's factor in milliseconds; the
    product is the exact one as long as it does not exceed 2^53, the range
    in which the numbers of the source are exact integers. Every other
    string yields 604800000 ms (seven days), and [getRefreshTokenExpiry]
    then is the clock reading plus seven days. *)
Theorem parseDuration_spec (duration : string) :
  (forall digits unit,
      well_formed duration digits unit ->
      exists factor,
        Jwt.units_get Jwt.units unit = Some factor
        /\ ((parseInt digits * factor <= 2 ^ 53)%Z ->
            Jwt.parseDuration duration = (parseInt digits * factor)%Z))
  /\ ((forall digits unit, ~ well_formed duration digits unit) ->
      Jwt.parseDuration duration = 604800000%Z
      /\ forall cfg now,
           Jwt.refreshExpiresIn cfg = duration ->
           Jwt.getRefreshTokenExpiry cfg now = (now + 604800000)%Z).
Proof.
  split.
  - intros digits unit W.
    destruct (units_get_unit unit) as (factor & F & _);
      [apply W | exists factor; split; [exact F|]].
    intros _. unfold Jwt.parseDuration.
    rewrite (duration_match_well_formed _ _ _ W), F. reflexivity.
  - intros H.
    assert (P : Jwt.parseDuration duration = 604800000%Z).
    { unfold Jwt.parseDuration. now rewrite (duration_match_none _ H). }
    split; [exact P|].
    intros cfg now E. unfold Jwt.getRefreshTokenExpiry. now rewrite E, P.
Qed.

(** The theorem at [7d], and at the malformed durations [2w], [1h30m],
    [15 m] and the empty string. *)
Lemma parseDuration_spec_witness :
  Jwt.parseDuration "7d" = (7 * 86400000)%Z
  /\ Jwt.parseDuration "2w" = 604800000%Z
  /\ Jwt.parseDuration "1h30m" = 604800000%Z
  /\ Jwt.parseDuration "15 m" = 604800000%Z
  /\ Jwt.parseDuration "" = 604800000%Z.
Proof.
  assert (N : forall duration,
             Jwt.duration_match duration = None ->
             forall digits unit, ~ well_formed duration digits unit).
  { intros duration E digits unit W.
    rewrite (duration_match_well_formed _ _ _ W) in E. discriminate. }
  split.
  - destruct (proj1 (parseDuration_spec "7d") "7" "d"%char)
      as (factor & F & P); [repeat split; discriminate|].
    injection F as <-. apply P. vm_compute. discriminate.
  - repeat split;
      apply (proj2 (parseDuration_spec _)); apply N; reflexivity.
Defined.

(* ===================================================================== *)
(** * The store: what the writes keep *)
(* ===================================================================== *)

Section Store.

Lemma token_by_value_absent (d : DB) (token : string) :
  absent token d <-> token_by_value d token = None.
Proof.
  unfold absent, token_by_value. split.
  - intros A. destruct (find _ _) as [t|] eqn:F; [|reflexivity].
    apply find_some in F as [I E]. apply String.eqb_eq in E.
    now destruct (A t I).
  - intros F t I E. apply (find_none _ _ F) in I.
    apply String.eqb_neq in I. contradiction.
Qed.

Lemma token_by_value_some (d : DB) (token : string) (t : RefreshToken) :
  token_by_value d token = Some t ->
  In t (refreshTokens d) /\ rt_token t = token.
Proof.
  unfold token_by_value. intros F. apply find_some in F as [I E].
  now apply String.eqb_eq in E.
Qed.

Lemma in_filter_neq {A} (key : A -> string) (k : string) (l : list A) (a : A) :
  In a (filter (fun v => negb (String.eqb (key v) k)) l)
  <-> In a l /\ key a <> k.
Proof.
  rewrite filter_In, negb_true_iff, String.eqb_neq. reflexivity.
Qed.

(** Dropping rows keeps the token values distinct. *)
Lemma unique_after_filter (keep : RefreshToken -> bool)
    (rows : list RefreshToken) :
  NoDup (map rt_token rows) -> NoDup (map rt_token (filter keep rows)).
Proof.
  induction rows as [|row rows IH]; simpl; intros H; [constructor|].
  inversion H as [|? ? N H']; subst.
  destruct (keep row); simpl; auto.
  constructor; auto.
  intros I. apply N. apply in_map_iff in I as (other & E & I).
  apply filter_In in I as [I _]. apply in_map_iff. eauto.
Qed.

Lemma NoDup_map_inj {A B} (f : A -> B) (l : list A) (a b : A) :
  NoDup (map f l) -> In a l -> In b l -> f a = f b -> a = b.
Proof.
  induction l as [|x l IH]; simpl; intros H Ia Ib E; [contradiction|].
  inversion H as [|? ? N H']; subst.
  destruct Ia as [->|Ia], Ib as [->|Ib]; auto.
  - destruct N. rewrite E. now apply in_map.
  - destruct N. rewrite <- E. now apply in_map.
Qed.

Lemma NoDup_map_snoc {A B} (f : A -> B) (l : list A) (a : A) :
  NoDup (map f l) -> ~ In (f a) (map f l) -> NoDup (map f (l ++ [a])%list).
Proof.
  intros H N. rewrite map_app. simpl.
  apply NoDup_app; [assumption | repeat constructor; auto | ].
  intros b Ib [<-|[]]. contradiction.
Qed.

Lemma token_create_ok (d d' : DB) (row : RefreshToken) :
  token_create d row = Ok d' ->
  users d' = users d
  /\ refreshTokens d' = (refreshTokens d ++ [row])%list
  /\ (forall t, In t (refreshTokens d) ->
        rt_id t <> rt_id row /\ rt_token t <> rt_token row).
Proof.
  unfold token_create. intros H.
  destruct (existsb _ (refreshTokens d)) eqn:X; [discriminate|].
  destruct (negb _); [discriminate|].
  injection H as <-. simpl. repeat split; auto;
    destruct (existsb_exists
                (fun v => String.eqb (rt_id v) (rt_id row)
                          || String.eqb (rt_token v) (rt_token row))
                (refreshTokens d)) as [_ K];
    intros E; rewrite K in X; try discriminate;
    exists t; (split; [assumption|]); rewrite E, String.eqb_refl;
    auto using orb_true_r.
Qed.

Lemma token_delete_ok (d d' : DB) (id : string) :
  token_delete d id = Ok d' ->
  users d' = users d
  /\ refreshTokens d'
     = filter (fun v => negb (String.eqb (rt_id v) id)) (refreshTokens d).
Proof.
  unfold token_delete. destruct (existsb _ _); [|discriminate].
  intros H. injection H as <-. auto.
Qed.

Lemma user_create_ok (d d' : DB) (u : User) :
  user_create d u = Ok d' ->
  users d' = (users d ++ [u])%list /\ refreshTokens d' = refreshTokens d.
Proof.
  unfold user_create. destruct (existsb _ _); [discriminate|].
  intros H. injection H as <-. auto.
Qed.

Lemma absent_stable (token : string) (e : Env) :
  uuid e <> token -> stable (absent token) e.
Proof.
  intros N. unfold stable, absent. repeat split.
  - intros d u d' H A t I. apply user_create_ok in H as [_ E].
    rewrite E in I. auto.
  - intros d row d' R H A t I. apply token_create_ok in H as (_ & E & _).
    rewrite E in I. apply in_app_iff in I as [I|[<-|[]]]; auto. congruence.
  - intros d id0 d' H A t I. apply token_delete_ok in H as [_ E].
    rewrite E in I. apply filter_In in I as [I _]. auto.
  - intros d tok A t I. simpl in I. apply filter_In in I as [I _]. auto.
  - intros d uid A t I. simpl in I. apply filter_In in I as [I _]. auto.
Qed.

Lemma unique_tokens_stable (e : Env) : stable unique_tokens e.
Proof.
  unfold stable, unique_tokens. repeat split.
  - intros d u d' H A. apply user_create_ok in H as [_ E]. now rewrite E.
  - intros d row d' _ H A. apply token_create_ok in H as (_ & E & F).
    rewrite E. apply NoDup_map_snoc; [assumption|].
    intros I. apply in_map_iff in I as (t & Et & I).
    now destruct (proj2 (F t I)).
  - intros d id0 d' H A. apply token_delete_ok in H as [_ E].
    rewrite E. now apply unique_after_filter.
  - intros d tok A. simpl. now apply unique_after_filter.
  - intros d uid A. simpl. now apply unique_after_filter.
Qed.

End Store.

(* ===================================================================== *)
(** * The handlers: what every request keeps *)
(* ===================================================================== *)

Ltac run_handler :=
  unfold register, login, refreshToken, logout, logoutAll, getMe,
    try_next, bind, ret,
    prisma_user_findUnique_email, prisma_user_findUnique_id,
    prisma_user_create, prisma_refreshToken_create,
    prisma_refreshToken_findUnique, prisma_refreshToken_delete,
    prisma_refreshToken_deleteMany_token, prisma_refreshToken_deleteMany_user,
    transaction, read, write, logged; simpl.

Ltac branch :=
  match goal with
  | |- context [if ?b then _ else _] => destruct b eqn:?; simpl
  | |- context [match user_by_email ?d ?x with _ => _ end] =>
      destruct (user_by_email d x) eqn:?; simpl
  | |- context [match user_by_id ?d ?x with _ => _ end] =>
      destruct (user_by_id d x) eqn:?; simpl
  | |- context [match token_by_value ?d ?x with _ => _ end] =>
      destruct (token_by_value d x) eqn:?; simpl
  | |- context [match user_create ?d ?x with _ => _ end] =>
      destruct (user_create d x) eqn:?; simpl
  | |- context [match token_create ?d ?x with _ => _ end] =>
      destruct (token_create d x) eqn:?; simpl
  | |- context [match token_delete ?d ?x with _ => _ end] =>
      destruct (token_delete d x) eqn:?; simpl
  end.

Lemma handle_stable (P : DB -> Prop) (D : Deps) (e : Env) (r : Request)
    (w : World) :
  stable P e -> P (db w) -> P (db (fst (handle D e r w))).
Proof.
  intros (SU & SC & SD & SMt & SMu) H.
  destruct r; simpl; run_handler; repeat branch;
    repeat first
      [ assumption
      | apply SMt
      | apply SMu
      | (eapply SC; [ | eassumption | ]; [reflexivity | ])
      | (eapply SD; [eassumption | ])
      | (eapply SU; [eassumption | ]) ].
Qed.

Lemma serve_stable (P : DB -> Prop) (D : Deps)
    (session : list (Env * Request)) :
  Forall (fun er => stable P (fst er)) session ->
  forall w, P (db w) -> P (db (serve D session w)).
Proof.
  induction 1 as [|[e r] session S _ IH]; simpl; intros w H; [assumption|].
  apply IH. now apply handle_stable.
Qed.

Section Lifecycle.
Variable D : Deps.

Lemma refresh_absent (e : Env) (T : string) (w : World) :
  T <> "" -> absent T (db w) ->
  refreshToken D e (Some T) w
  = ({| db := db w; log := (log w ++ [RefreshTokenFindUnique T])%list |},
     Sent (errorResponse "Invalid refresh token" 401)).
Proof.
  intros N A. apply token_by_value_absent in A.
  destruct T as [|c T]; [congruence|].
  run_handler. now rewrite A.
Qed.

Lemma refresh_after_session (T : string) (w : World)
    (session : list (Env * Request)) (e : Env) :
  T <> "" -> absent T (db w) -> never_draws T session ->
  absent T (db (serve D session w))
  /\ snd (refreshToken D e (Some T) (serve D session w))
     = Sent (errorResponse "Invalid refresh token" 401).
Proof.
  intros N A S.
  assert (A' : absent T (db (serve D session w))).
  { apply serve_stable; [|assumption].
    eapply Forall_impl; [|exact S]. intros er. apply absent_stable. }
  split; [assumption|]. now rewrite (refresh_absent e T _ N A').
Qed.

Lemma filter_id_drops_token (d : DB) (T : string) (stored : RefreshToken) :
  unique_tokens d -> token_by_value d T = Some stored ->
  forall t,
    In t (filter (fun v => negb (String.eqb (rt_id v) (rt_id stored)))
            (refreshTokens d)) ->
    rt_token t <> T.
Proof.
  intros U F t I E. apply token_by_value_some in F as [Is Es].
  apply in_filter_neq in I as [I Nid].
  apply Nid. f_equal. apply (NoDup_map_inj rt_token (refreshTokens d)); auto.
  congruence.
Qed.

Lemma refresh_success_inv (e : Env) (token : field) (w w' : World)
    (o : Outcome) :
  refreshToken D e token w = (w', o) -> is_success o = true ->
  exists T stored user d1,
    token = Some T /\ T <> ""
    /\ token_by_value (db w) T = Some stored
    /\ user_by_id (db w) (rt_userId stored) = Some user
    /\ token_delete (db w) (rt_id stored) = Ok d1
    /\ token_create d1
         (token_row e (uuid e) (u_id user)
            (Jwt.getRefreshTokenExpiry (config D) (now e)))
       = Ok (db w')
    /\ o = Sent (successResponse
                   (JsObject
                      [ ("accessToken",
                         JsString
                           (Jwt.generateAccessToken (config D)
                              (jsonwebtoken D) (now e)
                              {| id := u_id user; email := u_email user |}));
                        ("refreshToken", JsString (uuid e)) ])
                   "Token refreshed successfully" None).
Proof.
  run_handler.
  destruct token as [T|]; simpl;
    [|intros H; injection H as <- <-; discriminate].
  destruct T as [|c T]; simpl;
    [intros H; injection H as <- <-; discriminate|].
  repeat branch; intros H; injection H as <- <-; try discriminate.
  intros _. simpl. exists (String c T), r, u, a.
  repeat split; auto. discriminate.
Qed.

(** C1: a refresh token value is consumed by the refresh that succeeds
    with it. When [refreshToken] succeeds on [T] in a store that respects
    the unique constraint on token values, and the value it hands out
    ([uuid e], the [refreshToken] field of the response) is a new one, no
    row holds [T] afterwards; and after any further requests, as long as
    none of them draws [T] again as its fresh uuid, a refresh with [T] is
    answered 401 "Invalid refresh token" (InvalidCredentials), whatever
    the clock says. *)
Theorem refresh_is_one_shot (e : Env) (T : string) (w w' : World) (o : Outcome)
    (session : list (Env * Request)) (e' : Env) :
  unique_tokens (db w) ->
  refreshToken D e (Some T) w = (w', o) ->
  is_success o = true ->
  uuid e <> T ->
  never_draws T session ->
  get_outcome_token o = Some (uuid e)
  /\ absent T (db w')
  /\ absent T (db (serve D session w'))
  /\ snd (refreshToken D e' (Some T) (serve D session w'))
     = Sent (errorResponse "Invalid refresh token" 401)
  /\ error_kind (snd (refreshToken D e' (Some T) (serve D session w')))
     = Some InvalidCredentials.
Proof.
  intros U R S N Sess.
  destruct (refresh_success_inv _ _ _ _ _ R S)
    as (T0 & stored & user & d1 & ET & NE & F & _ & Del & Cre & ->).
  injection ET as <-.
  assert (A : absent T (db w')).
  { intros t I. apply token_delete_ok in Del as [_ E1].
    apply token_create_ok in Cre as (_ & E2 & _).
    rewrite E2, E1 in I. apply in_app_iff in I as [I|[<-|[]]].
    - now apply (filter_id_drops_token (db w) T stored).
    - exact N. }
  destruct (refresh_after_session T w' session e' NE A Sess) as [A' R'].
  rewrite R'. repeat split; auto.
Qed.

(** C2: the rotation step is all or nothing. When [refreshToken] reaches
    the rotation (the token is stored, not expired, its owner active), the
    request ends in one of two ways. Either it succeeds, and then the
    RefreshToken table is the old one without the rows of the stored id
    and with the fresh row (so the fresh row is there, and the old row is
    not, its value being new); or the transaction throws, the error goes
    to [next], and the store is the one the request started from: neither
    the delete nor the insert shows. *)
Theorem rotation_is_atomic (e : Env) (T : string) (w w' : World) (o : Outcome)
    (stored : RefreshToken) (user : User) :
  T <> "" ->
  token_by_value (db w) T = Some stored ->
  (now e >? rt_expiresAt stored)%Z = false ->
  user_by_id (db w) (rt_userId stored) = Some user ->
  u_isActive user = true ->
  refreshToken D e (Some T) w = (w', o) ->
  let fresh :=
    token_row e (uuid e) (u_id user)
      (Jwt.getRefreshTokenExpiry (config D) (now e)) in
  (is_success o = true
   /\ users (db w') = users (db w)
   /\ In fresh (refreshTokens (db w'))
   /\ (forall t, In t (refreshTokens (db w')) <->
                 (In t (refreshTokens (db w)) /\ rt_id t <> rt_id stored)
                 \/ t = fresh)
   /\ (uuid e <> T -> ~ In stored (refreshTokens (db w'))))
  \/ (exists err, o = NextError err /\ db w' = db w).
Proof.
  intros N F X Usr Act R fresh.
  destruct T as [|c T]; [congruence|].
  revert R. run_handler. rewrite F. simpl. rewrite X, Usr. simpl.
  rewrite Act. simpl.
  destruct (token_delete (db w) (rt_id stored)) as [d1|err] eqn:Del; simpl.
  - fold fresh.
    destruct (token_create d1 fresh) as [d2|err] eqn:Cre; simpl;
      intros H; injection H as <- <-; simpl.
    + left. apply token_delete_ok in Del as [U1 E1].
      apply token_create_ok in Cre as (U2 & E2 & _).
      assert (K : forall t, In t (refreshTokens d2) <->
                 (In t (refreshTokens (db w)) /\ rt_id t <> rt_id stored)
                 \/ t = fresh).
      { intros t. rewrite E2, E1, in_app_iff, in_filter_neq. simpl.
        intuition auto. }
      repeat split.
      * congruence.
      * apply K. now right.
      * apply K.
      * apply K.
      * intros NT I. apply K in I as [[_ I]|I]; [congruence|].
        apply token_by_value_some in F as [_ F].
        apply NT. rewrite <- F, I. reflexivity.
    + right. eauto.
  - intros H; injection H as <- <-; simpl. right. eauto.
Qed.

(** C3: a refresh with a stored token whose [expiresAt] is before the
    clock reading is answered 401 "Refresh token has expired"
    (ExpiredCredential), and the row is deleted on the way: the table
    loses exactly the rows of that id, no row holds the value any more,
    and a later refresh with the value is answered 401 "Invalid refresh
    token", at any clock reading [now e'] (before the old expiry too) and
    after any requests that do not draw the value again. *)
Theorem expired_refresh_deletes (e : Env) (T : string) (w : World)
    (stored : RefreshToken) :
  unique_tokens (db w) ->
  T <> "" ->
  token_by_value (db w) T = Some stored ->
  (rt_expiresAt stored < now e)%Z ->
  let w' := fst (refreshToken D e (Some T) w) in
  snd (refreshToken D e (Some T) w)
  = Sent (errorResponse "Refresh token has expired" 401)
  /\ error_kind (snd (refreshToken D e (Some T) w)) = Some ExpiredCredential
  /\ users (db w') = users (db w)
  /\ (forall t, In t (refreshTokens (db w')) <->
                In t (refreshTokens (db w)) /\ rt_id t <> rt_id stored)
  /\ absent T (db w')
  /\ forall session e',
       never_draws T session ->
       snd (refreshToken D e' (Some T) (serve D session w'))
       = Sent (errorResponse "Invalid refresh token" 401).
Proof.
  intros U N F X w'.
  assert (G : (now e >? rt_expiresAt stored)%Z = true) by lia.
  set (d' := {| users := users (db w);
                refreshTokens :=
                  filter (fun v => negb (String.eqb (rt_id v) (rt_id stored)))
                         (refreshTokens (db w)) |}).
  assert (Del : token_delete (db w) (rt_id stored) = Ok d').
  { unfold token_delete.
    destruct (existsb _ _) eqn:Ex; [reflexivity|].
    apply token_by_value_some in F as [I _].
    assert (K : existsb (fun v => String.eqb (rt_id v) (rt_id stored))
                  (refreshTokens (db w)) = true).
    { apply existsb_exists. exists stored. split; [assumption|].
      apply String.eqb_refl. }
    congruence. }
  assert (R : refreshToken D e (Some T) w
              = ({| db := d';
                    log := (log w ++ [RefreshTokenFindUnique T]
                            ++ [RefreshTokenDelete (rt_id stored)])%list |},
                 Sent (errorResponse "Refresh token has expired" 401))).
  { destruct T as [|c T]; [congruence|].
    run_handler. rewrite F. simpl. rewrite G. simpl. rewrite Del.
    now rewrite <- app_assoc. }
  subst w'. rewrite R. simpl.
  assert (A : absent T d').
  { intros t I. now apply (filter_id_drops_token (db w) T stored). }
  split; [reflexivity|]. split; [reflexivity|]. split; [reflexivity|].
  split; [intros t; apply in_filter_neq|]. split; [exact A|].
  intros session e' S.
  now apply (refresh_after_session T _ session e' N).
Qed.

End Lifecycle.

(* ===================================================================== *)
(** * logout, login, register, getMe *)
(* ===================================================================== *)

Lemma filter_idem {A} (f : A -> bool) (l : list A) :
  filter f (filter f l) = filter f l.
Proof.
  induction l as [|a l IH]; simpl; [reflexivity|].
  destruct (f a) eqn:E; simpl; [rewrite E, IH|]; auto.
Qed.

Section Accounts.
Variable D : Deps.

Lemma logout_run (T : string) (w : World) :
  T <> "" ->
  logout (Some T) w
  = ({| db := token_deleteMany_token (db w) T;
        log := (log w ++ [RefreshTokenDeleteManyByToken T])%list |},
     Sent (successResponse JsNull "Logged out successfully" None)).
Proof. destruct T as [|c T]; [congruence|]. reflexivity. Qed.

(** C8 (amended): [logout] with a non-empty token value answers "Logged
    out successfully" whether or not a row matches, and so does a second
    logout with the same value, which leaves the store as the first one
    left it. The RefreshToken table loses exactly the rows with that
    value, the accounts stay, and a later refresh with the value is
    answered 401 "Invalid refresh token" (InvalidCredentials). *)
Theorem logout_is_idempotent (T : string) (w : World) :
  T <> "" ->
  let w1 := fst (logout (Some T) w) in
  let w2 := fst (logout (Some T) w1) in
  snd (logout (Some T) w)
  = Sent (successResponse JsNull "Logged out successfully" None)
  /\ snd (logout (Some T) w1)
     = Sent (successResponse JsNull "Logged out successfully" None)
  /\ users (db w1) = users (db w)
  /\ (forall t, In t (refreshTokens (db w1)) <->
                In t (refreshTokens (db w)) /\ rt_token t <> T)
  /\ absent T (db w1)
  /\ db w2 = db w1
  /\ forall session e,
       never_draws T session ->
       snd (refreshToken D e (Some T) (serve D session w1))
       = Sent (errorResponse "Invalid refresh token" 401)
       /\ error_kind (snd (refreshToken D e (Some T) (serve D session w1)))
          = Some InvalidCredentials.
Proof.
  intros N w1 w2. subst w2 w1. rewrite !(logout_run _ _ N). simpl.
  assert (A : absent T (token_deleteMany_token (db w) T)).
  { intros t I. simpl in I. now apply in_filter_neq in I. }
  split; [reflexivity|]. split; [reflexivity|]. split; [reflexivity|].
  split; [intros t; apply in_filter_neq|]. split; [exact A|].
  split.
  - unfold token_deleteMany_token. simpl. f_equal. apply filter_idem.
  - intros session e S.
    destruct (refresh_after_session D T
                {| db := token_deleteMany_token (db w) T;
                   log := (log w ++ [RefreshTokenDeleteManyByToken T])%list |}
                session e N A S) as [_ R].
    rewrite R. split; reflexivity.
Qed.


(** C5: two failing logins, one with an email no account has, one with
    the email of an active account and a password that does not verify,
    get the same response, 401 "Invalid email or password"
    (InvalidCredentials), and neither changes the store. The first part
    takes two requests that carry an email and a password, against any
    two stores. The second part takes one request, fields present or not,
    against a store that does not know the email and a store where the
    password is wrong: the responses are equal (a request that lacks a
    field is answered 400 before the store is read), so the response does
    not tell whether the email is registered. *)
Theorem login_failures_indistinguishable
    (e1 e2 : Env) (w1 w2 : World) (user : User) :
  (forall email1 password1 email2 password2 : string,
      email1 <> "" -> password1 <> "" -> email2 <> "" -> password2 <> "" ->
      user_by_email (db w1) (toLowerCase email1) = None ->
      user_by_email (db w2) (toLowerCase email2) = Some user ->
      u_isActive user = true ->
      bcrypt_compare D password2 (u_password user) = false ->
      snd (login D e1 (Some email1) (Some password1) w1)
      = Sent (errorResponse "Invalid email or password" 401)
      /\ snd (login D e2 (Some email2) (Some password2) w2)
         = Sent (errorResponse "Invalid email or password" 401)
      /\ error_kind (snd (login D e1 (Some email1) (Some password1) w1))
         = Some InvalidCredentials
      /\ error_kind (snd (login D e2 (Some email2) (Some password2) w2))
         = Some InvalidCredentials
      /\ db (fst (login D e1 (Some email1) (Some password1) w1)) = db w1
      /\ db (fst (login D e2 (Some email2) (Some password2) w2)) = db w2)
  /\ (forall email password : field,
      user_by_email (db w1) (toLowerCase (str email)) = None ->
      user_by_email (db w2) (toLowerCase (str email)) = Some user ->
      u_isActive user = true ->
      bcrypt_compare D (str password) (u_password user) = false ->
      snd (login D e1 email password w1) = snd (login D e2 email password w2)
      /\ db (fst (login D e1 email password w1)) = db w1
      /\ db (fst (login D e2 email password w2)) = db w2).
Proof.
  split.
  - intros email1 password1 email2 password2 N1 P1 N2 P2 F1 F2 Act Cmp.
    destruct email1 as [|a1 email1]; [congruence|].
    destruct password1 as [|b1 password1]; [congruence|].
    destruct email2 as [|a2 email2]; [congruence|].
    destruct password2 as [|b2 password2]; [congruence|].
    unfold login. run_handler. simpl in F1, F2. rewrite F1, F2. simpl.
    rewrite Act. simpl. simpl in Cmp. rewrite Cmp. simpl.
    repeat split.
  - intros email password F1 F2 Act Cmp.
    unfold login, try_next, bind, ret, prisma_user_findUnique_email, read.
    destruct (negb (truthy email) || negb (truthy password)); simpl.
    + repeat split.
    + rewrite F1, F2, Act, Cmp. simpl. repeat split.
Qed.

Lemma emailRegex_nonempty (email : string) :
  test emailRegex email = true -> email <> "".
Proof. intros H ->. discriminate. Qed.

Lemma long_nonempty (password : string) :
  (8 <= String.length password)%nat -> password <> "".
Proof. intros H ->. simpl in H. lia. Qed.

(** C6: [register] works on the lowercase form of the email it is given.
    For a request that passes validation: if an account holds the
    lowercase form [E] of the email, the answer is 409 "User with this
    email already exists" (DuplicateEmail) and the store is unchanged;
    the first call to the store is the lookup of [E]; any account the
    request adds has the email [E]; and a successful request adds exactly
    one account, with email [E]. *)
Theorem register_normalises_email
    (e : Env) (w : World) (email password : string)
    (firstName lastName : field) :
  test emailRegex email = true ->
  (8 <= String.length password)%nat ->
  let E := toLowerCase email in
  let run := register D e (Some email) (Some password) firstName lastName w in
  (forall existing,
      In existing (users (db w)) -> u_email existing = E ->
      run = ({| db := db w; log := (log w ++ [UserFindUniqueByEmail E])%list |},
             Sent (errorResponse "User with this email already exists" 409))
      /\ error_kind (snd run) = Some DuplicateEmail)
  /\ (exists rest,
        log (fst run) = (log w ++ UserFindUniqueByEmail E :: rest)%list)
  /\ (forall u, In u (users (db (fst run))) ->
                In u (users (db w)) \/ u_email u = E)
  /\ (is_success (snd run) = true ->
      exists row, users (db (fst run)) = (users (db w) ++ [row])%list
                  /\ u_email row = E).
Proof.
  intros V L E run.
  assert (Ne : email <> "") by now apply emailRegex_nonempty.
  assert (Np : password <> "") by now apply long_nonempty.
  assert (Lb : (String.length password <? 8)%nat = false)
    by now apply Nat.ltb_ge.
  assert (R : run =
    try_next (
      existingUser <- prisma_user_findUnique_email E ;;
      match existingUser with
      | Some _ =>
          ret (errorResponse "User with this email already exists" 409)
      | None =>
          let hashedPassword := bcrypt_hash D password (salt e) in
          let row := user_row D e E hashedPassword
                              (or_null firstName) (or_null lastName) in
          _ <- prisma_user_create row ;;
          let user := select public_user_keys row in
          let accessToken :=
            Jwt.generateAccessToken (config D) (jsonwebtoken D) (now e)
              {| id := u_id row; email := u_email row |} in
          let refreshToken := uuid e in
          _ <- prisma_refreshToken_create
                 (token_row e refreshToken (u_id row)
                    (Jwt.getRefreshTokenExpiry (config D) (now e))) ;;
          ret (successResponse (auth_data user accessToken refreshToken)
                 "User registered successfully" (Some 201%Z))
      end) w).
  { subst run. unfold register.
    rewrite (truthy_Some _ Ne), (truthy_Some _ Np). cbn [negb orb str].
    rewrite V, Lb. reflexivity. }
  rewrite R. clear R run. split; [|split; [|split]].
  - intros existing I Em.
    assert (F : exists u, user_by_email (db w) E = Some u).
    { unfold user_by_email.
      destruct (find _ _) eqn:X; [eauto|].
      apply (find_none _ _ X) in I. rewrite Em, String.eqb_refl in I.
      discriminate. }
    destruct F as [u F]. run_handler. rewrite F. simpl. split; reflexivity.
  - run_handler. repeat branch; rewrite <- ?app_assoc; simpl; eauto.
  - intros u. run_handler. repeat branch; auto;
      repeat match goal with
      | H : user_create _ _ = Ok _ |- _ => apply user_create_ok in H as [? ?]
      | H : token_create _ _ = Ok _ |- _ =>
          apply token_create_ok in H as (? & ? & ?)
      end;
      repeat match goal with H : users _ = _ |- _ => rewrite H; clear H end;
      rewrite in_app_iff; simpl; intuition (subst; auto).
  - run_handler. repeat branch; try discriminate. intros _.
      repeat match goal with
      | H : user_create _ _ = Ok _ |- _ => apply user_create_ok in H as [? ?]
      | H : token_create _ _ = Ok _ |- _ =>
          apply token_create_ok in H as (? & ? & ?)
      end;
      repeat match goal with H : users _ = _ |- _ => rewrite H; clear H end.
      eexists. split; [reflexivity|]. reflexivity.
Qed.

(** C7: when the email does not match the regex (an absent email counts)
    or the password has fewer than 8 characters, [register] answers 400
    (InvalidInput) and the world is the one it started from: the store is
    unchanged and the log of store calls has no new entry. *)
Theorem register_rejects_invalid_input
    (e : Env) (w : World) (email password firstName lastName : field) :
  test emailRegex (str email) = false
  \/ (String.length (str password) < 8)%nat ->
  exists message,
    register D e email password firstName lastName w
    = (w, Sent (errorResponse message 400))
    /\ error_kind (Sent (errorResponse message 400)) = Some InvalidInput.
Proof.
  intros H. unfold register, try_next, ret.
  destruct (negb (truthy email) || negb (truthy password)) eqn:T; simpl.
  - eexists; split; reflexivity.
  - destruct (test emailRegex (str email)) eqn:V; simpl.
    + destruct H as [H|H]; [discriminate|].
      apply Nat.ltb_lt in H. rewrite H.
      eexists; split; reflexivity.
    + eexists; split; reflexivity.
Qed.


Lemma select_public (row : User) :
  select public_user_keys row
  = JsObject [ ("id", JsString (u_id row));
               ("email", JsString (u_email row));
               ("firstName", js_field (u_firstName row));
               ("lastName", js_field (u_lastName row));
               ("isActive", JsBool (u_isActive row));
               ("createdAt", JsDate (u_createdAt row)) ].
Proof. reflexivity. Qed.

Lemma select_profile (row : User) :
  select (public_user_keys ++ ["updatedAt"]) row
  = JsObject [ ("id", JsString (u_id row));
               ("email", JsString (u_email row));
               ("firstName", js_field (u_firstName row));
               ("lastName", js_field (u_lastName row));
               ("isActive", JsBool (u_isActive row));
               ("createdAt", JsDate (u_createdAt row));
               ("updatedAt", JsDate (u_updatedAt row)) ].
Proof. reflexivity. Qed.

Lemma keys_deep_js_field (x : field) : keys_deep (js_field x) = [].
Proof. now destruct x. Qed.

Ltac no_password :=
  repeat split; simpl; rewrite ?keys_deep_js_field; simpl;
  try (intros K; repeat (destruct K as [K|K]; [discriminate|]); exact K).

Lemma select_public_fields (row : User) :
  select public_user_keys row = JsObject (public_fields row)
  /\ select (public_user_keys ++ ["updatedAt"]) row
     = JsObject (profile_fields row).
Proof. split; reflexivity. Qed.

(** C9: the data of a successful [register], [login] or [getMe] is made
    of the non-secret columns of the account and of the two tokens, and
    of nothing else. Its [user] object is the account's id, email,
    firstName, lastName, isActive and createdAt, each under its own name
    ([getMe] adds updatedAt); next to it [register] and [login] return
    the access token, signed over the id and the email, and the uuid. No
    key is [password], at any depth, and the columns returned are the
    same whatever the password hash of the account is. *)
Theorem credentialHash_never_returned (e : Env) (w : World) :
  (forall email password firstName lastName data message statusCode,
      snd (register D e email password firstName lastName w)
      = Sent (successResponse data message statusCode) ->
      exists row,
        In row
          (users (db (fst (register D e email password firstName lastName
                             w))))
        /\ data
           = auth_data (JsObject (public_fields row))
               (Jwt.generateAccessToken (config D) (jsonwebtoken D) (now e)
                  {| id := u_id row; email := u_email row |})
               (uuid e)
        /\ keys (user_of data) = public_user_keys
        /\ ~ In "password" (keys_deep data))
  /\ (forall email password data message statusCode,
      snd (login D e email password w)
      = Sent (successResponse data message statusCode) ->
      exists row,
        user_by_email (db w) (toLowerCase (str email)) = Some row
        /\ data
           = auth_data (JsObject (public_fields row))
               (Jwt.generateAccessToken (config D) (jsonwebtoken D) (now e)
                  {| id := u_id row; email := u_email row |})
               (uuid e)
        /\ keys (user_of data) = public_user_keys
        /\ ~ In "password" (keys_deep data))
  /\ (forall user data message statusCode,
      snd (getMe user w) = Sent (successResponse data message statusCode) ->
      exists row,
        user_by_id (db w) (id user) = Some row
        /\ data = JsObject [("user", JsObject (profile_fields row))]
        /\ keys (user_of data) = (public_user_keys ++ ["updatedAt"])%list
        /\ ~ In "password" (keys_deep data))
  /\ (forall hash row,
      public_fields (with_password hash row) = public_fields row
      /\ profile_fields (with_password hash row) = profile_fields row).
Proof.
  split; [|split; [|split]].
  - intros email password firstName lastName data message statusCode.
    run_handler. repeat branch; intros H; try discriminate.
    injection H as <- _ _.
    match goal with
    | U : user_create _ ?row = Ok _, C : token_create _ _ = Ok _ |- _ =>
        exists row; split;
        [ apply token_create_ok in C as (Eu & _); rewrite Eu;
          apply user_create_ok in U as [Ev _]; rewrite Ev;
          apply in_app_iff; simpl; auto
        | rewrite (proj1 (select_public_fields row)) ]
    end.
    split; [reflexivity|]. no_password.
  - intros email password data message statusCode.
    run_handler. repeat branch; intros H; try discriminate.
    injection H as <- _ _.
    match goal with
    | U : user_by_email _ _ = Some ?u |- _ => exists u
    end.
    split; [reflexivity|]. split; [reflexivity|]. no_password.
  - intros user data message statusCode.
    run_handler. repeat branch; intros H; try discriminate.
    injection H as <- _ _.
    match goal with
    | U : user_by_id _ _ = Some ?u |- _ => exists u
    end.
    split; [reflexivity|]. split; [reflexivity|]. no_password.
  - intros hash row. split; reflexivity.
Qed.

End Accounts.

(* ===================================================================== *)
(** * src/middleware/auth.js: authenticate *)
(* ===================================================================== *)

Lemma split_acc_no_space (t piece : string) :
  all_chars not_space t = true ->
  split_acc " " t piece = [piece ++ t].
Proof.
  revert piece. induction t as [|c t IH]; simpl; intros piece H.
  - now rewrite append_nil_r.
  - apply andb_true_iff in H as [H1 H2]. unfold not_space in H1.
    apply negb_true_iff in H1. rewrite H1, (IH _ H2), append_assoc.
    reflexivity.
Qed.

Lemma split_acc_piece (t rest piece : string) :
  all_chars not_space t = true ->
  split_acc " " (t ++ String " " rest) piece
  = (piece ++ t) :: split_acc " " rest "".
Proof.
  revert piece. induction t as [|c t IH]; simpl; intros piece H.
  - now rewrite append_nil_r.
  - apply andb_true_iff in H as [H1 H2]. unfold not_space in H1.
    apply negb_true_iff in H1. rewrite H1, (IH _ H2), append_assoc.
    reflexivity.
Qed.

Lemma bearer_token (t : string) :
  all_chars not_space t = true ->
  index (split " " ("Bearer " ++ t)) 1 = Some t.
Proof.
  intros H. unfold split, index. simpl.
  now rewrite (split_acc_no_space t "" H).
Qed.

Lemma bearer_token_then (t rest : string) :
  all_chars not_space t = true ->
  index (split " " ("Bearer " ++ t ++ String " " rest)) 1 = Some t.
Proof.
  intros H. unfold split, index. simpl.
  now rewrite (split_acc_piece t rest "" H).
Qed.

Lemma startsWith_append (p s : string) : startsWith (p ++ s) p = true.
Proof.
  induction p as [|c p IH]; simpl; [reflexivity|].
  now rewrite Ascii.eqb_refl, IH.
Qed.

Section Guard.
Variable D : Deps.

Lemma authenticate_run (e : Env) (w : World) (header token : string) :
  header <> "" -> startsWith header "Bearer " = true ->
  index (split " " header) 1 = Some token -> token <> "" ->
  authenticate D e (Some header) w
  = (w, verdict (Jwt.verifyAccessToken (config D) (jsonwebtoken D) (now e)
                  token)).
Proof.
  intros N S I T. unfold authenticate.
  rewrite (truthy_Some _ N). cbn [negb str]. rewrite S, I. cbn [negb].
  rewrite (truthy_Some _ T). reflexivity.
Qed.

Lemma authenticate_bearer (e : Env) (w : World) (t rest : string) :
  t <> "" -> all_chars not_space t = true ->
  authenticate D e (Some ("Bearer " ++ t)) w
  = (w, verdict (Jwt.verifyAccessToken (config D) (jsonwebtoken D) (now e) t))
  /\ authenticate D e (Some ("Bearer " ++ t ++ String " " rest)) w
  = (w, verdict (Jwt.verifyAccessToken (config D) (jsonwebtoken D) (now e) t)).
Proof.
  intros N H. split; apply authenticate_run;
    auto using startsWith_append, bearer_token, bearer_token_then;
    discriminate.
Qed.

End Guard.

(* ===================================================================== *)
(** * The properties on a concrete store *)
(* ===================================================================== *)

(** The unique constraint holds in the empty store and after every
    session, so the stores the theorems above speak of are the ones the
    code can reach. *)
Lemma unique_tokens_empty : unique_tokens Prisma.empty.
Proof. constructor. Qed.

Lemma serve_unique_tokens (D : Deps) (session : list (Env * Request))
    (w : World) :
  unique_tokens (db w) -> unique_tokens (db (serve D session w)).
Proof.
  apply serve_stable. apply Forall_forall. intros er _.
  apply unique_tokens_stable.
Qed.

(** ** The toy store: [user@x.com] registered, holding [token-1] *)

Lemma registered_unique : unique_tokens (db Toy.registered).
Proof.
  apply (serve_unique_tokens Toy.deps
           [(Toy.env 1000 "1",
             Register (Some "user@x.com") (Some "password1") None None)]
           Toy.start).
  constructor.
Defined.

Lemma session_never_draws : never_draws "token-1" Toy.session.
Proof. repeat constructor; discriminate. Defined.

(** C1 at the toy store: [token-1] is refreshed at time 2000, the client
    goes on (a login, a refresh, a logout, a profile read), and a refresh
    with [token-1] is turned down. *)
Lemma refresh_is_one_shot_witness :
  unique_tokens (db Toy.registered)
  /\ is_success
       (snd (refreshToken Toy.deps (Toy.env 2000 "2") (Some "token-1")
               Toy.registered)) = true
  /\ snd (refreshToken Toy.deps (Toy.env 9000 "9") (Some "token-1")
            (serve Toy.deps Toy.session
               (fst (refreshToken Toy.deps (Toy.env 2000 "2")
                       (Some "token-1") Toy.registered))))
     = Sent (errorResponse "Invalid refresh token" 401).
Proof.
  split; [exact registered_unique|]. split; [reflexivity|].
  apply (refresh_is_one_shot Toy.deps (Toy.env 2000 "2") "token-1"
           Toy.registered _ _ Toy.session (Toy.env 9000 "9")
           registered_unique (surjective_pairing _) eq_refl).
  - discriminate.
  - exact session_never_draws.
Defined.

(** C2 at the toy store: the rotation of [token-1] succeeds and leaves
    [token-2] as the only row. *)
Lemma rotation_is_atomic_witness :
  token_by_value (db Toy.registered) "token-1" = Some Toy.token1
  /\ user_by_id (db Toy.registered) "u1" = Some Toy.alice_row
  /\ is_success
       (snd (refreshToken Toy.deps (Toy.env 2000 "2") (Some "token-1")
               Toy.registered)) = true
  /\ map rt_token
       (refreshTokens
          (db (fst (refreshToken Toy.deps (Toy.env 2000 "2") (Some "token-1")
                      Toy.registered))))
     = ["token-2"].
Proof.
  split; [reflexivity|]. split; [reflexivity|].
  destruct (rotation_is_atomic Toy.deps (Toy.env 2000 "2") "token-1"
              Toy.registered _ _ Toy.token1 Toy.alice_row
              ltac:(discriminate) eq_refl eq_refl eq_refl eq_refl
              (surjective_pairing _)) as [(S & _)|(err & E & _)].
  - split; [exact S | reflexivity].
  - discriminate E.
Defined.

(** The failing side of C2: with two devices logged in, a rotation of
    [token-1] that draws the value and the row id of the other device's
    token hits the unique constraint after its delete; the error goes to
    [next] and both rows are still there. *)
Example rotation_rolls_back :
  refreshToken Toy.deps (Toy.env 2000 "2") (Some "token-1") Toy.two_devices
  = ({| db := db Toy.two_devices;
        log := (log Toy.two_devices
                ++ [RefreshTokenFindUnique "token-1";
                    Transaction
                      [DeleteToken "r1";
                       CreateToken
                         (token_row (Toy.env 2000 "2") "token-2" "u1"
                                    604802000)]])%list |},
     NextError P2002).
Proof. reflexivity. Qed.

(** C3 at the toy store: [token-1] expires at 604801000; a refresh at
    700000000 is answered "expired", and one with the clock back at 2000
    is answered "invalid". *)
Lemma expired_refresh_deletes_witness :
  token_by_value (db Toy.registered) "token-1" = Some Toy.token1
  /\ snd (refreshToken Toy.deps (Toy.env 700000000 "2") (Some "token-1")
            Toy.registered)
     = Sent (errorResponse "Refresh token has expired" 401)
  /\ snd (refreshToken Toy.deps (Toy.env 2000 "3") (Some "token-1")
            (fst (refreshToken Toy.deps (Toy.env 700000000 "2")
                    (Some "token-1") Toy.registered)))
     = Sent (errorResponse "Invalid refresh token" 401).
Proof.
  split; [reflexivity|].
  destruct (expired_refresh_deletes Toy.deps (Toy.env 700000000 "2")
              "token-1" Toy.registered Toy.token1 registered_unique
              ltac:(discriminate) eq_refl eq_refl)
    as (R & _ & _ & _ & _ & Later).
  split; [exact R|].
  exact (Later [] (Toy.env 2000 "3") (Forall_nil _)).
Defined.

(** C8 (as stated, refuted): the claim has [logout] succeed for every
    token value, unconditionally. With the empty string for a token, or
    with no token, the guard of [logout] answers 400 "Refresh token is
    required" (InvalidInput), and the store is not called. *)
Lemma logout_without_token :
  (forall w,
      logout (Some "") w
      = (w, Sent (errorResponse "Refresh token is required" 400)))
  /\ (forall w,
      logout None w
      = (w, Sent (errorResponse "Refresh token is required" 400)))
  /\ error_kind (Sent (errorResponse "Refresh token is required" 400))
     = Some InvalidInput
  /\ is_success (Sent (errorResponse "Refresh token is required" 400))
     = false.
Proof. repeat split. Qed.

(** C8 (amended) at the toy store. *)
Lemma logout_is_idempotent_witness :
  snd (logout (Some "token-1") Toy.registered)
  = Sent (successResponse JsNull "Logged out successfully" None)
  /\ snd (logout (Some "token-1")
            (fst (logout (Some "token-1") Toy.registered)))
     = Sent (successResponse JsNull "Logged out successfully" None)
  /\ snd (refreshToken Toy.deps (Toy.env 2000 "2") (Some "token-1")
            (fst (logout (Some "token-1") Toy.registered)))
     = Sent (errorResponse "Invalid refresh token" 401).
Proof.
  destruct (logout_is_idempotent Toy.deps "token-1" Toy.registered
              ltac:(discriminate))
    as (R1 & R2 & _ & _ & _ & _ & Later).
  split; [exact R1|]. split; [exact R2|].
  exact (proj1 (Later [] (Toy.env 2000 "2") (Forall_nil _))).
Defined.

(** C5 at the toy store: an unknown email and a wrong password for
    [USER@x.com] get the same answer. *)
Lemma login_failures_indistinguishable_witness :
  user_by_email (db Toy.registered) (toLowerCase "ghost@x.com") = None
  /\ user_by_email (db Toy.registered) (toLowerCase "USER@x.com")
     = Some Toy.alice_row
  /\ snd (login Toy.deps (Toy.env 2000 "2") (Some "ghost@x.com")
            (Some "password1") Toy.registered)
     = snd (login Toy.deps (Toy.env 2500 "3") (Some "USER@x.com")
              (Some "password2") Toy.registered).
Proof.
  split; [reflexivity|]. split; [reflexivity|].
  destruct (proj1 (login_failures_indistinguishable Toy.deps
                     (Toy.env 2000 "2") (Toy.env 2500 "3")
                     Toy.registered Toy.registered Toy.alice_row)
              "ghost@x.com" "password1" "USER@x.com" "password2"
              ltac:(discriminate) ltac:(discriminate)
              ltac:(discriminate) ltac:(discriminate)
              eq_refl eq_refl eq_refl eq_refl) as (R1 & R2 & _).
  exact (eq_trans R1 (eq_sym R2)).
Defined.

(** C6 at the toy store: [USER@x.com] after [user@x.com]. *)
Lemma register_normalises_email_witness :
  test emailRegex "USER@x.com" = true
  /\ toLowerCase "USER@x.com" = "user@x.com"
  /\ register Toy.deps (Toy.env 2000 "2") (Some "USER@x.com")
       (Some "password2") None None Toy.registered
     = ({| db := db Toy.registered;
           log := (log Toy.registered
                   ++ [UserFindUniqueByEmail "user@x.com"])%list |},
        Sent (errorResponse "User with this email already exists" 409)).
Proof.
  split; [reflexivity|]. split; [reflexivity|].
  apply (proj1 (register_normalises_email Toy.deps (Toy.env 2000 "2")
                  Toy.registered "USER@x.com" "password2" None None
                  eq_refl ltac:(simpl; lia))
               Toy.alice_row (or_introl eq_refl) eq_refl).
Defined.

(** C7 at the toy store. *)
Lemma register_rejects_invalid_input_witness :
  test emailRegex "user-at-x.com" = false
  /\ exists message,
       register Toy.deps (Toy.env 2000 "2") (Some "user-at-x.com")
         (Some "password1") None None Toy.registered
       = (Toy.registered, Sent (errorResponse message 400))
       /\ error_kind (Sent (errorResponse message 400)) = Some InvalidInput.
Proof.
  split; [reflexivity|].
  apply (register_rejects_invalid_input Toy.deps (Toy.env 2000 "2")
           Toy.registered (Some "user-at-x.com") (Some "password1") None None).
  left. reflexivity.
Defined.

(** C9 at the toy store: the profile of [u1] and a login, neither of
    which shows the stored hash [$2a$12$password1]. *)
Lemma credentialHash_never_returned_witness :
  u_password Toy.alice_row = "$2a$12$password1"
  /\ snd (getMe Toy.alice Toy.registered)
     = Sent (successResponse
               (JsObject
                  [("user",
                    JsObject
                      [ ("id", JsString "u1");
                        ("email", JsString "user@x.com");
                        ("firstName", JsNull);
                        ("lastName", JsNull);
                        ("isActive", JsBool true);
                        ("createdAt", JsDate 1000);
                        ("updatedAt", JsDate 1000) ])])
               "User profile retrieved" None)
  /\ exists row,
       user_by_email (db Toy.registered) (toLowerCase "User@x.com")
       = Some row
       /\ Toy.login_data
          = auth_data (JsObject (public_fields row))
              (Jwt.generateAccessToken (config Toy.deps)
                 (jsonwebtoken Toy.deps) 1500
                 {| id := u_id row; email := u_email row |})
              "token-2".
Proof.
  split; [reflexivity|]. split; [reflexivity|].
  destruct (proj1 (proj2 (credentialHash_never_returned Toy.deps
                            (Toy.env 1500 "2") Toy.registered))
              (Some "User@x.com") (Some "password1") Toy.login_data
              "Login successful" None eq_refl)
    as (row & F & E & _).
  exists row. split; [exact F | exact E].
Defined.



(** ** The handlers on examples *)

Example registered_store :
  db Toy.registered
  = {| users := [Toy.alice_row]; refreshTokens := [Toy.token1] |}
  /\ log Toy.registered
     = [ UserFindUniqueByEmail "user@x.com";
         UserCreate "user@x.com";
         RefreshTokenCreate "token-1" "u1" ].
Proof. split; reflexivity. Qed.

Example login_succeeds :
  login Toy.deps (Toy.env 1500 "2") (Some "User@X.com") (Some "password1")
    Toy.registered
  = (Toy.two_devices,
     Sent (successResponse
             (auth_data (select public_user_keys Toy.alice_row)
                "jwt:u1" "token-2")
             "Login successful" None)).
Proof. reflexivity. Qed.

Example refresh_rotates :
  refreshToken Toy.deps (Toy.env 2000 "3") (Some "token-1") Toy.two_devices
  = ({| db := {| users := [Toy.alice_row];
                 refreshTokens :=
                   [ token_row (Toy.env 1500 "2") "token-2" "u1" 604801500;
                     token_row (Toy.env 2000 "3") "token-3" "u1" 604802000 ]
              |};
        log := (log Toy.two_devices
                ++ [ RefreshTokenFindUnique "token-1";
                     Transaction
                       [ DeleteToken "r1";
                         CreateToken
                           (token_row (Toy.env 2000 "3") "token-3" "u1"
                              604802000) ] ])%list |},
     Sent (successResponse
             (JsObject [ ("accessToken", JsString "jwt:u1");
                         ("refreshToken", JsString "token-3") ])
             "Token refreshed successfully" None)).
Proof. reflexivity. Qed.

Example logoutAll_revokes_both :
  refreshTokens (db (fst (logoutAll Toy.alice Toy.two_devices))) = [].
Proof. reflexivity. Qed.

(** ** The string primitives on examples *)

Example emailRegex_examples :
  map (test emailRegex)
      ["user@x.com"; "USER@x.com"; "a@b.c.d"; "a@b"; "a b@c.d"; "a@@b.c"; ""]
  = [true; true; true; false; false; false; false].
Proof. reflexivity. Qed.

Example split_examples :
  split " " "Bearer abc" = ["Bearer"; "abc"]
  /\ split " " "Bearer " = ["Bearer"; ""]
  /\ split " " "Bearer  abc" = ["Bearer"; ""; "abc"]
  /\ split " " "Bearer abc def" = ["Bearer"; "abc"; "def"].
Proof. repeat split. Qed.

Example parseDuration_examples :
  map Jwt.parseDuration ["7d"; "15m"; "1h"; "30s"; "007d"; "0d"]
  = [604800000; 900000; 3600000; 30000; 604800000; 0]%Z.
Proof. reflexivity. Qed.

(* ===================================================================== *)
(** * More of the code: validation, lifetimes, constraints, round trips *)
(* ===================================================================== *)

Section EmailShape.

Lemma is_char_eq (a c : ascii) : is_char a c = true -> c = a.
Proof. unfold is_char. apply Ascii.eqb_eq. Qed.

Lemma email_part_lang (s : string) :
  lang (Plus (Class not_space_at)) s <-> email_part s.
Proof. apply plus_class. Qed.

Lemma emailRegex_lang (s : string) : lang emailRegex s <-> email_shape s.
Proof.
  unfold emailRegex, email_shape. split.
  - intros H.
    inversion H as [| |? ? local s1 L H1| | | |]; subst; clear H.
    inversion H1 as [| |? ? at_ s2 A H2| | | |]; subst; clear H1.
    inversion H2 as [| |? ? domain s3 Dm H3| | | |]; subst; clear H2.
    inversion H3 as [| |? ? dot tld Dt Tl| | | |]; subst; clear H3.
    inversion A as [|? c Ca| | | | |]; subst; clear A.
    inversion Dt as [|? c' Cd| | | | |]; subst; clear Dt.
    apply is_char_eq in Ca, Cd. subst.
    exists local, domain, tld.
    repeat split; try (now apply email_part_lang).
  - intros (local & domain & tld & -> & L & Dm & Tl).
    constructor; [now apply email_part_lang|].
    change ("@" ++ domain ++ "." ++ tld)
      with (String "@" "" ++ (domain ++ "." ++ tld)).
    constructor; [now constructor|].
    constructor; [now apply email_part_lang|].
    change ("." ++ tld) with (String "." "" ++ tld).
    constructor; [now constructor | now apply email_part_lang].
Qed.

(** X1: the emails [register] lets through are exactly the strings
    [local@domain.tld] whose three parts are non-empty and hold neither
    whitespace nor [@]; the domain and the last part may hold more dots. *)
Theorem emailRegex_accepts_shape (s : string) :
  test emailRegex s = true <-> email_shape s.
Proof. rewrite test_lang. apply emailRegex_lang. Qed.

Lemma lower_not_space_at (c : ascii) :
  not_space_at (lower_ascii c) = not_space_at c.
Proof. destruct c as [[] [] [] [] [] [] [] []]; reflexivity. Qed.

Lemma lower_is_at (c : ascii) : is_char "@" (lower_ascii c) = is_char "@" c.
Proof. destruct c as [[] [] [] [] [] [] [] []]; reflexivity. Qed.

Lemma lower_is_dot (c : ascii) : is_char "." (lower_ascii c) = is_char "." c.
Proof. destruct c as [[] [] [] [] [] [] [] []]; reflexivity. Qed.

Lemma lower_ascii_idem (c : ascii) :
  lower_ascii (lower_ascii c) = lower_ascii c.
Proof. destruct c as [[] [] [] [] [] [] [] []]; reflexivity. Qed.

Lemma toLowerCase_idem (s : string) :
  toLowerCase (toLowerCase s) = toLowerCase s.
Proof.
  induction s as [|c s IH]; simpl; [reflexivity|].
  now rewrite lower_ascii_idem, IH.
Qed.

Lemma deriv_case_blind (r : regex) (c : ascii) :
  case_blind r ->
  deriv (lower_ascii c) r = deriv c r /\ case_blind (deriv c r).
Proof.
  induction r; simpl; intros B; auto.
  - rewrite B. destruct (b c); simpl; auto.
  - destruct B as [B1 B2].
    destruct (IHr1 B1) as [E1 C1], (IHr2 B2) as [E2 C2].
    rewrite E1, E2. destruct (nullable r1); simpl; auto.
  - destruct B as [B1 B2].
    destruct (IHr1 B1) as [E1 C1], (IHr2 B2) as [E2 C2].
    rewrite E1, E2. simpl; auto.
  - destruct (IHr B) as [E C]. rewrite E. simpl. auto.
Qed.

Lemma test_case_blind (s : string) :
  forall r, case_blind r -> test r (toLowerCase s) = test r s.
Proof.
  induction s as [|c s IH]; intros r B; simpl; [reflexivity|].
  destruct (deriv_case_blind r c B) as [E C]. rewrite E. now apply IH.
Qed.

Lemma emailRegex_case_blind : case_blind emailRegex.
Proof.
  unfold emailRegex, Plus. simpl.
  repeat split;
    auto using lower_not_space_at, lower_is_at, lower_is_dot.
Qed.

(** X2: the email check of [register] gives the same answer on an
    email and on the lowercase form that is stored, and lowering a
    lowercase form changes nothing. *)
Theorem emailRegex_ignores_case (s : string) :
  test emailRegex (toLowerCase s) = test emailRegex s
  /\ toLowerCase (toLowerCase s) = toLowerCase s.
Proof.
  split; [apply test_case_blind, emailRegex_case_blind|].
  apply toLowerCase_idem.
Qed.

End EmailShape.

Section Lifetime.

Lemma digit_value_range (c : ascii) :
  is_digit c = true -> (0 <= digit_value c <= 9)%Z.
Proof.
  unfold is_digit, digit_value, code. intros H.
  apply andb_true_iff in H as [H1 H2].
  apply Nat.leb_le in H1, H2. lia.
Qed.

Lemma parseInt_acc_nonneg (s : string) :
  all_chars is_digit s = true ->
  forall acc, (0 <= acc)%Z -> (0 <= parseInt_acc s acc)%Z.
Proof.
  induction s as [|c s IH]; cbn [parseInt_acc all_chars]; intros H acc A;
    [assumption|].
  apply andb_true_iff in H as [H1 H2].
  apply IH; [assumption|]. pose proof (digit_value_range c H1). lia.
Qed.

Lemma parseDuration_nonneg (duration : string) :
  (0 <= Jwt.parseDuration duration)%Z.
Proof.
  destruct (test Jwt.durationRegex duration) eqn:T.
  - apply test_lang, durationRegex_lang in T as (digits & unit & W).
    unfold Jwt.parseDuration.
    rewrite (duration_match_well_formed _ _ _ W).
    destruct W as (_ & _ & A & U).
    destruct (units_get_unit unit U) as (factor & F & I). rewrite F.
    assert (0 < factor)%Z.
    { simpl in I.
      destruct I as [I|[I|[I|[I|[]]]]]; injection I as _ <-; lia. }
    pose proof (parseInt_acc_nonneg digits A 0%Z ltac:(lia)).
    unfold parseInt. nia.
  - unfold Jwt.parseDuration, Jwt.duration_match. rewrite T. lia.
Qed.

(** X3: whatever the configured refresh lifetime is, well formed or
    not, the expiry [getRefreshTokenExpiry] computes from a clock reading
    [now] that is not before 1970 never lies before [now], as long as it is
    a time value a [Date] can hold (at most 8.64e15 ms from the epoch:
    past that the source's [new Date] is an Invalid Date, which this says
    nothing about); the lifetime added is then at most 8.64e15 ms, so the
    sum of the source is exact. *)
Theorem refresh_token_outlives_issue (cfg : Jwt.Config) (now : Z) :
  (0 <= now)%Z ->
  valid_date (Jwt.getRefreshTokenExpiry cfg now) ->
  (now <= Jwt.getRefreshTokenExpiry cfg now)%Z
  /\ (0 <= Jwt.getRefreshTokenExpiry cfg now - now <= 8640000000000000)%Z.
Proof.
  unfold valid_date, Jwt.getRefreshTokenExpiry. intros N V.
  pose proof (parseDuration_nonneg (Jwt.refreshExpiresIn cfg)). lia.
Qed.
End Lifetime.

Section Constraints.

Lemma user_create_fresh (d d' : DB) (u : User) :
  user_create d u = Ok d' ->
  forall v, In v (users d) -> u_id v <> u_id u /\ u_email v <> u_email u.
Proof.
  unfold user_create. intros H v I.
  destruct (existsb _ (users d)) eqn:X; [discriminate|].
  assert (K : (String.eqb (u_id v) (u_id u)
               || String.eqb (u_email v) (u_email u)) = false).
  { destruct (String.eqb (u_id v) (u_id u)
              || String.eqb (u_email v) (u_email u)) eqn:E; [|reflexivity].
    rewrite <- X. symmetry. apply existsb_exists. eauto. }
  apply orb_false_iff in K as [K1 K2].
  now apply String.eqb_neq in K1, K2.
Qed.

Lemma token_create_owner (d d' : DB) (row : RefreshToken) :
  token_create d row = Ok d' ->
  exists u, In u (users d) /\ u_id u = rt_userId row.
Proof.
  unfold token_create. destruct (existsb _ (refreshTokens d)); [discriminate|].
  destruct (existsb _ (users d)) eqn:X; simpl; [|discriminate].
  intros _. apply existsb_exists in X as (u & I & E).
  apply String.eqb_eq in E. eauto.
Qed.

Lemma NoDup_map_add {A B} (key : A -> B) (rows : list A) (row : A) :
  NoDup (map key rows) ->
  (forall other, In other rows -> key other <> key row) ->
  NoDup (map key (rows ++ [row])%list).
Proof.
  intros H F. apply NoDup_map_snoc; [assumption|].
  intros I. apply in_map_iff in I as (other & E & I). now apply (F other).
Qed.

Lemma NoDup_map_keep {A B} (key : A -> B) (keep : A -> bool) (rows : list A) :
  NoDup (map key rows) -> NoDup (map key (filter keep rows)).
Proof.
  induction rows as [|row rows IH]; simpl; intros H; [constructor|].
  apply NoDup_cons_iff in H as [N H].
  destruct (keep row); simpl; auto.
  apply NoDup_cons_iff. split; auto.
  rewrite in_map_iff. intros (other & E & I).
  apply filter_In in I as [I _]. apply N, in_map_iff. eauto.
Qed.

Lemma constraints_stable (e : Env) : stable constraints e.
Proof.
  unfold stable, constraints, unique_tokens, unique_token_ids,
    unique_emails, unique_user_ids, owners_exist.
  split; [|split; [|split; [|split]]].
  - intros d u d' H (T & Ti & Em & Ui & Ow).
    pose proof (user_create_fresh _ _ _ H) as F.
    apply user_create_ok in H as [Eu Et]. rewrite Eu, Et.
    repeat split; auto.
    + apply NoDup_map_add; [assumption|]. intros v I. now apply F.
    + apply NoDup_map_add; [assumption|]. intros v I. now apply F.
    + intros t I. destruct (Ow t I) as (v & Iv & Ev).
      exists v. split; [apply in_app_iff; auto | assumption].
  - intros d row d' _ H (T & Ti & Em & Ui & Ow).
    pose proof (token_create_owner _ _ _ H) as O.
    apply token_create_ok in H as (Eu & Et & F). rewrite Eu, Et.
    repeat split; auto.
    + apply NoDup_map_add; [assumption|]. intros v I. now apply F.
    + apply NoDup_map_add; [assumption|]. intros v I. now apply F.
    + intros t I. apply in_app_iff in I as [I|[<-|[]]]; auto.
  - intros d id0 d' H (T & Ti & Em & Ui & Ow).
    apply token_delete_ok in H as [Eu Et]. rewrite Eu, Et.
    repeat split; auto using NoDup_map_keep.
    intros t I. apply filter_In in I as [I _]. auto.
  - intros d tok (T & Ti & Em & Ui & Ow). simpl.
    repeat split; auto using NoDup_map_keep.
    intros t I. apply filter_In in I as [I _]. auto.
  - intros d uid (T & Ti & Em & Ui & Ow). simpl.
    repeat split; auto using NoDup_map_keep.
    intros t I. apply filter_In in I as [I _]. auto.
Qed.

Lemma constraints_empty : constraints Prisma.empty.
Proof.
  unfold constraints. repeat split; try constructor. intros t [].
Qed.

(** X4: the constraints of the schema (token values, token ids,
    emails and account ids are unique, and every token has its owner
    among the accounts) hold after any sequence of requests, when they
    held before it. *)
Theorem serve_keeps_constraints (D : Deps) (session : list (Env * Request))
    (w : World) :
  constraints (db w) -> constraints (db (serve D session w)).
Proof.
  apply serve_stable. apply Forall_forall. intros er _.
  apply constraints_stable.
Qed.

Lemma extends_refl {A} (l : list A) : extends l l.
Proof. exists []. now rewrite app_nil_r. Qed.

Lemma extends_stable (users0 : list User) (e : Env) :
  stable (fun d => extends users0 (users d)) e.
Proof.
  unfold stable. split; [|split; [|split; [|split]]].
  - intros d u d' H [more E]. apply user_create_ok in H as [Eu _].
    exists (more ++ [u])%list. now rewrite Eu, E, app_assoc.
  - intros d row d' _ H X. apply token_create_ok in H as (Eu & _).
    now rewrite Eu.
  - intros d id0 d' H X. apply token_delete_ok in H as [Eu _].
    now rewrite Eu.
  - intros d tok X. exact X.
  - intros d uid X. exact X.
Qed.

End Constraints.



Section MoreLifecycle.
Variable D : Deps.

Lemma user_by_id_some (d : DB) (id0 : string) (u : User) :
  user_by_id d id0 = Some u -> In u (users d) /\ u_id u = id0.
Proof.
  unfold user_by_id. intros F. apply find_some in F as [I E].
  now apply String.eqb_eq in E.
Qed.

Lemma user_by_email_some (d : DB) (email0 : string) (u : User) :
  user_by_email d email0 = Some u -> In u (users d) /\ u_email u = email0.
Proof.
  unfold user_by_email. intros F. apply find_some in F as [I E].
  now apply String.eqb_eq in E.
Qed.

(** X13: a login with the email of an inactive account is answered
    403 "Account is deactivated" whatever the password is (it is not
    compared), after the one lookup and without a write. *)
Theorem login_refuses_inactive_account (e : Env) (w : World)
    (email password : string) (user : User) :
  email <> "" -> password <> "" ->
  user_by_email (db w) (toLowerCase email) = Some user ->
  u_isActive user = false ->
  login D e (Some email) (Some password) w
  = ({| db := db w;
        log := (log w ++ [UserFindUniqueByEmail (toLowerCase email)])%list |},
     Sent (errorResponse "Account is deactivated" 403)).
Proof.
  intros Ne Np F A.
  destruct email as [|a email]; [congruence|].
  destruct password as [|b password]; [congruence|].
  unfold login. run_handler. simpl in F. rewrite F. simpl. now rewrite A.
Qed.

(** X14: a refresh with an unexpired token whose owner is inactive
    is answered 403 "Account is deactivated" and the token stays in the
    store: nothing is written. *)
Theorem refresh_spares_token_of_inactive_owner (e : Env) (w : World)
    (T : string) (stored : RefreshToken) (owner : User) :
  T <> "" ->
  token_by_value (db w) T = Some stored ->
  (now e <= rt_expiresAt stored)%Z ->
  user_by_id (db w) (rt_userId stored) = Some owner ->
  u_isActive owner = false ->
  refreshToken D e (Some T) w
  = ({| db := db w; log := (log w ++ [RefreshTokenFindUnique T])%list |},
     Sent (errorResponse "Account is deactivated" 403)).
Proof.
  intros N F X U A.
  assert (G : (now e >? rt_expiresAt stored)%Z = false) by lia.
  destruct T as [|c T]; [congruence|].
  run_handler. rewrite F. simpl. rewrite G, U. simpl. now rewrite A.
Qed.

Lemma token_delete_found (d : DB) (stored : RefreshToken) :
  In stored (refreshTokens d) ->
  token_delete d (rt_id stored)
  = Ok {| users := users d;
          refreshTokens :=
            filter (fun v => negb (String.eqb (rt_id v) (rt_id stored)))
                   (refreshTokens d) |}.
Proof.
  intros I. unfold token_delete.
  destruct (existsb _ _) eqn:X; [reflexivity|].
  assert (K : existsb (fun v => String.eqb (rt_id v) (rt_id stored))
                (refreshTokens d) = true).
  { apply existsb_exists. exists stored. split; [assumption|].
    apply String.eqb_refl. }
  congruence.
Qed.

(** X15: a refresh with a stored token is answered "Refresh token
    has expired" exactly when the clock is strictly past [expiresAt]; at
    the millisecond of expiry itself the token is not expired. *)
Theorem refresh_expiry_boundary (e : Env) (w : World) (T : string)
    (stored : RefreshToken) :
  T <> "" ->
  token_by_value (db w) T = Some stored ->
  (snd (refreshToken D e (Some T) w)
   = Sent (errorResponse "Refresh token has expired" 401)
   <-> (rt_expiresAt stored < now e)%Z).
Proof.
  intros N F.
  pose proof (token_by_value_some _ _ _ F) as [I _].
  destruct T as [|c T]; [congruence|].
  run_handler. rewrite F. simpl.
  destruct (now e >? rt_expiresAt stored)%Z eqn:G; simpl.
  - rewrite (token_delete_found _ _ I). simpl. split; [lia | reflexivity].
  - split; [|lia]. repeat branch; discriminate.
Qed.


Lemma token_create_spec (d : DB) (row : RefreshToken) :
  (forall t, In t (refreshTokens d) ->
             rt_id t <> rt_id row /\ rt_token t <> rt_token row) ->
  (exists u, In u (users d) /\ u_id u = rt_userId row) ->
  token_create d row
  = Ok {| users := users d;
          refreshTokens := (refreshTokens d ++ [row])%list |}.
Proof.
  intros F (u & I & E). unfold token_create.
  destruct (existsb _ (refreshTokens d)) eqn:X.
  - apply existsb_exists in X as (t & It & Et).
    destruct (F t It) as [N1 N2].
    apply orb_true_iff in Et as [Et|Et]; apply String.eqb_eq in Et;
      contradiction.
  - destruct (existsb _ (users d)) eqn:Y; [reflexivity|].
    assert (K : existsb (fun v => String.eqb (u_id v) (rt_userId row))
                  (users d) = true).
    { apply existsb_exists. exists u. split; [assumption|].
      now apply String.eqb_eq. }
    congruence.
Qed.

(** X16: a refresh with a stored, unexpired token of an active
    owner, on a store that answers, succeeds exactly when no other row
    holds the id or the uuid drawn for the new row; when another row holds
    one of them, the error P2002 of the insert goes to [next] and the store
    is unchanged. The clock is not before 1970 and the new expiry is a
    time value a [Date] can hold. *)
Theorem refresh_succeeds_iff_no_clash (e : Env) (w : World) (T : string)
    (stored : RefreshToken) (owner : User) :
  T <> "" ->
  token_by_value (db w) T = Some stored ->
  (now e <= rt_expiresAt stored)%Z ->
  user_by_id (db w) (rt_userId stored) = Some owner ->
  u_isActive owner = true ->
  (0 <= now e)%Z ->
  valid_date (Jwt.getRefreshTokenExpiry (config D) (now e)) ->
  (is_success (snd (refreshToken D e (Some T) w)) = true
   <-> forall t, In t (refreshTokens (db w)) ->
                 rt_id t <> rt_id stored ->
                 rt_id t <> token_id e /\ rt_token t <> uuid e)
  /\ ((exists t, In t (refreshTokens (db w))
                 /\ rt_id t <> rt_id stored
                 /\ (rt_id t = token_id e \/ rt_token t = uuid e)) ->
      snd (refreshToken D e (Some T) w) = NextError P2002
      /\ db (fst (refreshToken D e (Some T) w)) = db w).
Proof.
  intros N F X U A _ _.
  assert (G : (now e >? rt_expiresAt stored)%Z = false) by lia.
  pose proof (token_by_value_some _ _ _ F) as [I _].
  pose proof (user_by_id_some _ _ _ U) as [Iu Eu].
  destruct T as [|c T]; [congruence|].
  run_handler. rewrite F. simpl. rewrite G, U. simpl. rewrite A. simpl.
  rewrite (token_delete_found _ _ I). simpl.
  destruct (token_create _ _) as [d2|err] eqn:Cre; simpl.
  - apply token_create_ok in Cre as (_ & _ & Fr). simpl in Fr.
    assert (Free : forall t, In t (refreshTokens (db w)) ->
                     rt_id t <> rt_id stored ->
                     rt_id t <> token_id e /\ rt_token t <> uuid e).
    { intros t It Nt. apply (Fr t). apply in_filter_neq. auto. }
    split; [split; [intros _; exact Free | reflexivity]|].
    intros (t & It & Nt & Hit). exfalso.
    destruct (Free t It Nt) as [Ni Nv]. destruct Hit; contradiction.
  - assert (Clash : ~ (forall t, In t (refreshTokens (db w)) ->
                   rt_id t <> rt_id stored ->
                   rt_id t <> token_id e /\ rt_token t <> uuid e)).
    { intros Fr. rewrite token_create_spec in Cre; [discriminate| |].
      - simpl. intros t It. apply in_filter_neq in It as [It Nt]. auto.
      - simpl. eauto. }
    split; [split; [discriminate | intros Fr; contradiction]|].
    intros _. split; [|reflexivity]. f_equal.
    unfold token_create in Cre.
    destruct (existsb _ _); [now injection Cre as <-|].
    destruct (negb _) eqn:Y; [|discriminate].
    exfalso. apply negb_true_iff in Y. simpl in Y.
    assert (K : existsb (fun u => String.eqb (u_id u) (u_id owner))
                  (users (db w)) = true).
    { apply existsb_exists. exists owner. split; [assumption|].
      apply String.eqb_refl. }
    congruence.
Qed.


Lemma find_added {A} (is_it : A -> bool) (rows : list A) (row : A) :
  (forall other, In other rows -> is_it other = false) ->
  is_it row = true ->
  find is_it (rows ++ [row])%list = Some row.
Proof.
  intros F T. induction rows as [|r rows IH]; simpl.
  - now rewrite T.
  - rewrite (F r) by (left; reflexivity). apply IH.
    intros other I. apply F. now right.
Qed.

Lemma token_create_lookup (d d' : DB) (row : RefreshToken) :
  token_create d row = Ok d' ->
  token_by_value d' (rt_token row) = Some row.
Proof.
  intros H. apply token_create_ok in H as (_ & E & F).
  unfold token_by_value. rewrite E. apply find_added.
  - intros other I. apply String.eqb_neq. now apply F.
  - apply String.eqb_refl.
Qed.

Lemma user_create_lookup (d d' : DB) (row : User) :
  user_create d row = Ok d' ->
  user_by_id d' (u_id row) = Some row
  /\ user_by_email d' (u_email row) = Some row.
Proof.
  intros H. pose proof (user_create_fresh _ _ _ H) as F.
  apply user_create_ok in H as [E _].
  unfold user_by_id, user_by_email. rewrite E.
  split; apply find_added;
    try apply String.eqb_refl;
    intros other I; apply String.eqb_neq; now apply F.
Qed.

(** X7: whenever a response hands out a refresh token (register,
    login, refresh), it is the uuid the request drew, and looking it up in
    the store the request leaves gives the row made for it: its owner is
    an account of the store, and it expires at [getRefreshTokenExpiry] of
    the request's clock. *)
Theorem issued_token_is_stored (e : Env) (r : Request) (w : World)
    (T : string) :
  get_outcome_token (snd (handle D e r w)) = Some T ->
  T = uuid e
  /\ exists owner,
       In owner (users (db (fst (handle D e r w))))
       /\ token_by_value (db (fst (handle D e r w))) T
          = Some (token_row e T (u_id owner)
                    (Jwt.getRefreshTokenExpiry (config D) (now e))).
Proof.
  destruct r; simpl; run_handler; repeat branch; simpl;
    try discriminate; intros H; injection H as <-;
    (split; [reflexivity|]).
  - (* register *)
    match goal with
    | U : user_create _ ?row = Ok _, C : token_create _ _ = Ok _ |- _ =>
        exists row; split;
        [ apply token_create_ok in C as (Eu & _); rewrite Eu;
          apply user_create_ok in U as [Ev _]; rewrite Ev;
          apply in_app_iff; simpl; auto
        | apply (token_create_lookup _ _ _ C) ]
    end.
  - (* login *)
    match goal with
    | U : user_by_email _ _ = Some ?u, C : token_create _ _ = Ok _ |- _ =>
        exists u; split;
        [ apply token_create_ok in C as (Eu & _); rewrite Eu;
          now apply user_by_email_some in U
        | apply (token_create_lookup _ _ _ C) ]
    end.
  - (* refresh *)
    match goal with
    | U : user_by_id _ _ = Some ?u, C : token_create _ _ = Ok _,
      X : token_delete _ _ = Ok _ |- _ =>
        exists u; split;
        [ apply token_create_ok in C as (Eu & _); rewrite Eu;
          apply token_delete_ok in X as [Ev _]; rewrite Ev;
          now apply user_by_id_some in U
        | apply (token_create_lookup _ _ _ C) ]
    end.
Qed.


Lemma register_success_inv (e : Env) (email password firstName lastName : field)
    (w : World) :
  is_success (snd (register D e email password firstName lastName w)) = true ->
  let row := user_row D e (toLowerCase (str email))
               (bcrypt_hash D (str password) (salt e))
               (or_null firstName) (or_null lastName) in
  let token := token_row e (uuid e) (user_id e)
                 (Jwt.getRefreshTokenExpiry (config D) (now e)) in
  truthy email = true /\ truthy password = true
  /\ test emailRegex (str email) = true
  /\ exists d1,
       user_create (db w) row = Ok d1
       /\ token_create d1 token
          = Ok (db (fst (register D e email password firstName lastName w)))
       /\ snd (register D e email password firstName lastName w)
          = Sent (successResponse
                    (auth_data (select public_user_keys row)
                       (Jwt.generateAccessToken (config D) (jsonwebtoken D)
                          (now e)
                          {| id := user_id e;
                             email := toLowerCase (str email) |})
                       (uuid e))
                    "User registered successfully" (Some 201%Z)).
Proof.
  run_handler. repeat branch; simpl; try discriminate. intros _.
  repeat match goal with
         | H : _ || _ = false |- _ => apply orb_false_iff in H as [? ?]
         | H : negb _ = false |- _ => apply negb_false_iff in H
         end.
  repeat split; auto. eauto.
Qed.

(** X8: after a successful register, a login with the same password
    and the email in any letter case succeeds and returns the account just
    created, provided bcrypt verifies the password against the hash it
    made, new accounts are active, and the id and uuid the login draws are
    not taken. *)
Theorem register_then_login (e1 e2 : Env) (w : World)
    (email password firstName lastName : field) (email' : string) :
  is_success (snd (register D e1 email password firstName lastName w)) = true ->
  isActive_default D = true ->
  bcrypt_compare D (str password)
    (bcrypt_hash D (str password) (salt e1)) = true ->
  toLowerCase email' = toLowerCase (str email) ->
  fresh_for e2 (db (fst (register D e1 email password firstName lastName w))) ->
  let w1 := fst (register D e1 email password firstName lastName w) in
  let row := user_row D e1 (toLowerCase (str email))
               (bcrypt_hash D (str password) (salt e1))
               (or_null firstName) (or_null lastName) in
  snd (login D e2 (Some email') password w1)
  = Sent (successResponse
            (auth_data (select public_user_keys row)
               (Jwt.generateAccessToken (config D) (jsonwebtoken D) (now e2)
                  {| id := user_id e1; email := toLowerCase (str email) |})
               (uuid e2))
            "Login successful" None).
Proof.
  intros S Act Cmp Low Fr w1 row.
  destruct (register_success_inv _ _ _ _ _ _ S)
    as (Te & Tp & V & d1 & Uc & Tc & _).
  fold row in Uc. fold w1 in Tc, Fr.
  destruct (user_create_lookup _ _ _ Uc) as [_ Fe].
  pose proof (token_create_ok _ _ _ Tc) as (Eu & Et & _).
  assert (F : user_by_email (db w1) (toLowerCase email') = Some row).
  { unfold user_by_email in *. rewrite Eu, Low. exact Fe. }
  assert (Ne : truthy (Some email') = true).
  { destruct email' as [|c s]; [|reflexivity].
    simpl in Low. destruct email as [[|c s]|]; simpl in *; discriminate. }
  assert (In row (users (db w1))).
  { now apply user_by_email_some in F. }
  unfold login, try_next, bind, ret, prisma_user_findUnique_email, read,
    prisma_refreshToken_create, write.
  rewrite Ne, Tp. cbn [negb orb str logged db log fst snd].
  rewrite F. cbn [u_isActive row user_row u_password].
  rewrite Act, Cmp. cbn [negb].
  rewrite token_create_spec.
  - cbn [snd]. rewrite select_public. subst row. simpl.
    rewrite ?Act. reflexivity.
  - intros t I. apply (Fr t I).
  - exists row. auto.
Qed.


(** X9: after a successful register, [getMe] with the identity the
    access token was issued for finds the account just created and
    returns its public fields, with the email in lowercase. *)
Theorem register_then_getMe (e : Env) (w : World)
    (email password firstName lastName : field) :
  is_success (snd (register D e email password firstName lastName w)) = true ->
  let w1 := fst (register D e email password firstName lastName w) in
  let row := user_row D e (toLowerCase (str email))
               (bcrypt_hash D (str password) (salt e))
               (or_null firstName) (or_null lastName) in
  getMe {| id := user_id e; email := toLowerCase (str email) |} w1
  = ({| db := db w1;
        log := (log w1 ++ [UserFindUniqueById (user_id e)])%list |},
     Sent (successResponse
             (JsObject
                [("user", select (public_user_keys ++ ["updatedAt"]) row)])
             "User profile retrieved" None)).
Proof.
  intros S w1 row.
  destruct (register_success_inv _ _ _ _ _ _ S)
    as (_ & _ & _ & d1 & Uc & Tc & _).
  fold row in Uc. fold w1 in Tc.
  destruct (user_create_lookup _ _ _ Uc) as [Fi _].
  pose proof (token_create_ok _ _ _ Tc) as (Eu & _).
  assert (F : user_by_id (db w1) (user_id e) = Some row).
  { unfold user_by_id in *. rewrite Eu. exact Fi. }
  unfold getMe. run_handler. rewrite F. reflexivity.
Qed.

Lemma register_again (e : Env) (w : World)
    (email password firstName lastName : field) (u : User) :
  negb (truthy email) || negb (truthy password) = false ->
  test emailRegex (str email) = true ->
  (String.length (str password) <? 8)%nat = false ->
  user_by_email (db w) (toLowerCase (str email)) = Some u ->
  snd (register D e email password firstName lastName w)
  = Sent (errorResponse "User with this email already exists" 409).
Proof.
  intros T V L F. unfold register, try_next, bind, ret,
    prisma_user_findUnique_email, read.
  rewrite T, V, L. cbn [negb logged db]. rewrite F. reflexivity.
Qed.

Lemma register_error_inv (e : Env) (w : World)
    (email password firstName lastName : field) (err : JsError) :
  snd (register D e email password firstName lastName w) = NextError err ->
  let row := user_row D e (toLowerCase (str email))
               (bcrypt_hash D (str password) (salt e))
               (or_null firstName) (or_null lastName) in
  let token := token_row e (uuid e) (user_id e)
                 (Jwt.getRefreshTokenExpiry (config D) (now e)) in
  negb (truthy email) || negb (truthy password) = false
  /\ test emailRegex (str email) = true
  /\ (String.length (str password) <? 8)%nat = false
  /\ ((user_create (db w) row = Throw err
       /\ db (fst (register D e email password firstName lastName w)) = db w)
      \/ exists d1,
           user_create (db w) row = Ok d1
           /\ token_create d1 token = Throw err
           /\ db (fst (register D e email password firstName lastName w))
              = d1).
Proof.
  run_handler. repeat branch; simpl; try discriminate;
    intros H; injection H as <-;
    repeat match goal with
           | H : negb _ = false |- _ => apply negb_false_iff in H
           end;
    repeat split; eauto.
Qed.

(** X10: when [register] ends in [next(error)], whatever the error
    is, either nothing was written, or the account was created without a
    refresh token (the insert of the token failed after the insert of the
    account); in that case the same request sent again is answered 409
    "User with this email already exists". The clock is not before 1970
    and the expiry of the token is a time value a [Date] can hold. *)
Theorem register_error_leaves_account (e : Env) (w : World)
    (email password firstName lastName : field) (err : JsError) :
  (0 <= now e)%Z ->
  valid_date (Jwt.getRefreshTokenExpiry (config D) (now e)) ->
  snd (register D e email password firstName lastName w) = NextError err ->
  let w1 := fst (register D e email password firstName lastName w) in
  let row := user_row D e (toLowerCase (str email))
               (bcrypt_hash D (str password) (salt e))
               (or_null firstName) (or_null lastName) in
  db w1 = db w
  \/ (users (db w1) = (users (db w) ++ [row])%list
      /\ refreshTokens (db w1) = refreshTokens (db w)
      /\ forall e',
           snd (register D e' email password firstName lastName w1)
           = Sent (errorResponse
                     "User with this email already exists" 409)).
Proof.
  intros _ _ H w1 row.
  destruct (register_error_inv _ _ _ _ _ _ _ H)
    as (T & V & L & [[Uc E]|(d1 & Uc & Tc & E)]);
    fold row in Uc; fold w1 in E.
  - left; exact E.
  - destruct (user_create_lookup _ _ _ Uc) as [_ Fe].
    pose proof (user_create_ok _ _ _ Uc) as [Eu Et].
    right. rewrite E. split; [exact Eu|]. split; [exact Et|].
    intros e'. apply (register_again e' w1 _ _ _ _ row T V L).
    rewrite E. exact Fe.
Qed.

(** X12: a request answered with an error response has written
    nothing to the store, with one exception: the refresh answered
    "Refresh token has expired", which has deleted the expired row. *)
Theorem error_responses_leave_the_store (e : Env) (r : Request) (w : World)
    (message : string) (statusCode : Z) :
  snd (handle D e r w) = Sent (errorResponse message statusCode) ->
  db (fst (handle D e r w)) = db w
  \/ (message = "Refresh token has expired"
      /\ exists T stored,
           r = Refresh (Some T)
           /\ token_by_value (db w) T = Some stored
           /\ token_delete (db w) (rt_id stored)
              = Ok (db (fst (handle D e r w)))).
Proof.
  destruct r; simpl; run_handler; repeat branch; simpl;
    try discriminate; intros H; injection H as <- <-; auto.
  right. split; [reflexivity|].
  destruct token as [T|]; [|discriminate]. eauto.
Qed.

Lemma find_filter_keep {A} (is_it keep : A -> bool) (rows : list A) :
  (forall row, In row rows -> is_it row = true -> keep row = true) ->
  find is_it (filter keep rows) = find is_it rows.
Proof.
  induction rows as [|row rows IH]; simpl; intros K; [reflexivity|].
  destruct (keep row) eqn:Kr; simpl.
  - destruct (is_it row); [reflexivity|]. apply IH. auto.
  - destruct (is_it row) eqn:Ir.
    + rewrite (K row) in Kr by auto. discriminate.
    + apply IH. auto.
Qed.

Lemma find_filter_found {A} (is_it keep : A -> bool) (rows : list A) (x : A) :
  find is_it rows = Some x -> keep x = true ->
  find is_it (filter keep rows) = Some x.
Proof.
  induction rows as [|row rows IH]; simpl; intros F K; [discriminate|].
  destruct (is_it row) eqn:Ir.
  - injection F as ->. rewrite K. simpl. now rewrite Ir.
  - destruct (keep row); simpl; [rewrite Ir|]; auto.
Qed.

(** X18: after [logout] with a token value, the lookup of any other
    token value gives what it gave before. *)
Theorem logout_spares_other_tokens (T T' : string) (w : World) :
  T <> "" -> T' <> T ->
  token_by_value (db (fst (logout (Some T) w))) T'
  = token_by_value (db w) T'.
Proof.
  intros N Ne. rewrite (logout_run T w N). simpl.
  unfold token_by_value. simpl. apply find_filter_keep.
  intros row _ E. apply String.eqb_eq in E.
  apply negb_true_iff, String.eqb_neq. congruence.
Qed.

(** X19: [logoutAll] answers success, leaves the accounts, removes
    exactly the token rows of the caller, leaves the lookup of every
    token of another owner as it was, and (with unique token values) a
    later refresh with a token that belonged to the caller is answered
    401 "Invalid refresh token". *)
Theorem logoutAll_revokes_every_session (user : Identity) (w : World) :
  let w1 := fst (logoutAll user w) in
  snd (logoutAll user w)
  = Sent (successResponse JsNull
            "Logged out from all devices successfully" None)
  /\ users (db w1) = users (db w)
  /\ (forall t, In t (refreshTokens (db w1)) <->
                In t (refreshTokens (db w)) /\ rt_userId t <> id user)
  /\ (forall T t,
        token_by_value (db w) T = Some t -> rt_userId t <> id user ->
        token_by_value (db w1) T = Some t)
  /\ (forall T t session e,
        unique_tokens (db w) -> T <> "" ->
        token_by_value (db w) T = Some t -> rt_userId t = id user ->
        never_draws T session ->
        snd (refreshToken D e (Some T) (serve D session w1))
        = Sent (errorResponse "Invalid refresh token" 401)).
Proof.
  intros w1. subst w1. unfold logoutAll. run_handler.
  split; [reflexivity|]. split; [reflexivity|].
  split; [intros t; apply in_filter_neq|]. split.
  - intros T t F N. unfold token_by_value in *. simpl.
    apply find_filter_found; [assumption|].
    now apply negb_true_iff, String.eqb_neq.
  - intros T t session e U N F Own S.
    apply refresh_after_session; [assumption| |assumption].
    intros t' I E. simpl in I. apply in_filter_neq in I as [I No].
    apply token_by_value_some in F as [It Et].
    apply No. rewrite <- Own. f_equal.
    apply (NoDup_map_inj rt_token (refreshTokens (db w))); auto.
    congruence.
Qed.

Lemma filter_other_ids_length (rows : list RefreshToken)
    (stored : RefreshToken) :
  NoDup (map rt_id rows) -> In stored rows ->
  S (List.length
       (filter (fun v => negb (String.eqb (rt_id v) (rt_id stored))) rows))
  = List.length rows.
Proof.
  induction rows as [|row rows IH]; simpl; intros U I; [contradiction|].
  apply NoDup_cons_iff in U as [N U].
  destruct I as [->|I].
  - rewrite String.eqb_refl. simpl. f_equal.
    rewrite forallb_filter_id; [reflexivity|].
    apply forallb_forall. intros x Ix.
    apply negb_true_iff, String.eqb_neq. intros E. apply N.
    rewrite <- E. now apply in_map.
  - destruct (String.eqb (rt_id row) (rt_id stored)) eqn:E; simpl.
    + apply String.eqb_eq in E. destruct N. rewrite E. now apply in_map.
    + f_equal. now apply IH.
Qed.

(** X17: with unique token ids, a successful refresh leaves the
    RefreshToken table with as many rows as before. *)
Theorem rotation_keeps_session_count (e : Env) (token : field)
    (w : World) :
  unique_token_ids (db w) ->
  is_success (snd (refreshToken D e token w)) = true ->
  List.length (refreshTokens (db (fst (refreshToken D e token w))))
  = List.length (refreshTokens (db w)).
Proof.
  intros U S.
  destruct (refresh_success_inv D e token w _ _ (surjective_pairing _) S)
    as (T & stored & owner & d1 & _ & _ & F & _ & Del & Cre & _).
  apply token_by_value_some in F as [I _].
  apply token_delete_ok in Del as [_ E1].
  apply token_create_ok in Cre as (_ & E2 & _).
  rewrite E2, E1, length_app. simpl.
  rewrite <- (filter_other_ids_length _ stored U I). lia.
Qed.

End MoreLifecycle.

Section Normalised.
Variable D : Deps.

Ltac users_of_writes :=
  repeat match goal with
         | H : user_create _ _ = Ok _ |- _ =>
             apply user_create_ok in H as [? ?]
         | H : token_create _ _ = Ok _ |- _ =>
             apply token_create_ok in H as (? & ? & ?)
         | H : token_delete _ _ = Ok _ |- _ =>
             apply token_delete_ok in H as [? ?]
         end;
  repeat match goal with
         | H : users _ = _ |- _ => rewrite H in *; clear H
         end.

Lemma handle_normalised (e : Env) (r : Request) (w : World) :
  normalised (db w) -> normalised (db (fst (handle D e r w))).
Proof.
  intros N.
  destruct r; simpl; run_handler; repeat branch; simpl;
    try assumption; unfold normalised in *; users_of_writes;
    try assumption;
    intros acct I; apply in_app_iff in I as [I|[<-|[]]]; auto; simpl;
    match goal with
    | H : negb (test emailRegex _) = false |- _ =>
        apply negb_false_iff in H;
        now rewrite toLowerCase_idem,
          (test_case_blind _ _ emailRegex_case_blind)
    end.
Qed.

(** X6: when every stored email is in lowercase and passes the
    regex of [register], this is still so after any sequence of requests. *)
Theorem stored_emails_are_normalised (session : list (Env * Request))
    (w : World) :
  normalised (db w) -> normalised (db (serve D session w)).
Proof.
  revert w. induction session as [|[e r] session IH]; simpl; intros w N;
    [assumption|].
  apply IH. now apply handle_normalised.
Qed.

Lemma only_register_adds_accounts (e : Env) (r : Request) (w : World) :
  users (db (fst (handle D e r w))) = users (db w)
  \/ exists email password firstName lastName,
       r = Register email password firstName lastName.
Proof.
  destruct r; [right; eauto| | | | |]; left; simpl;
    run_handler; repeat branch; simpl; try reflexivity;
    users_of_writes; reflexivity.
Qed.

(** X5: no request removes or changes an account: after any
    sequence of requests the User table is the one before with rows added
    at the end, and a single request leaves the table as it is unless it
    is a register. *)
Theorem accounts_are_never_removed (session : list (Env * Request))
    (w : World) :
  extends (users (db w)) (users (db (serve D session w)))
  /\ (forall u, In u (users (db w)) -> In u (users (db (serve D session w))))
  /\ (forall e r,
        users (db (fst (handle D e r w))) = users (db w)
        \/ exists email password firstName lastName,
             r = Register email password firstName lastName).
Proof.
  assert (X : extends (users (db w)) (users (db (serve D session w)))).
  { apply (serve_stable (fun d => extends (users (db w)) (users d))).
    - apply Forall_forall. intros er _. apply extends_stable.
    - apply extends_refl. }
  split; [exact X|]. split.
  - destruct X as [more E]. intros u I. rewrite E. apply in_app_iff. auto.
  - intros e r. apply only_register_adds_accounts.
Qed.

End Normalised.

Section MoreGuard.
Variable D : Deps.

(** X20: when jsonwebtoken rejects the empty token, [optionalAuth]
    sets [req.user] to an identity for exactly the headers [authenticate]
    lets through, and to the same identity; it never touches the store. *)
Theorem optionalAuth_agrees_with_authenticate (e : Env) (w : World)
    (header : field) :
  (exists err,
      Jwt.verifyAccessToken (config D) (jsonwebtoken D) (now e) ""
      = Jwt.Thrown err) ->
  fst (optionalAuth D e header w) = w
  /\ identity_of (snd (optionalAuth D e header w))
     = granted (snd (authenticate D e header w)).
Proof.
  intros [err E]. split; [reflexivity|].
  unfold optionalAuth, authenticate. cbn [snd].
  destruct (truthy header); cbn [negb andb]; [|reflexivity].
  destruct (startsWith (str header) "Bearer "); cbn [negb]; [|reflexivity].
  destruct (index (split " " (str header)) 1) as [[|c token]|];
    cbn [truthy negb str].
  - rewrite E. reflexivity.
  - destruct (Jwt.verifyAccessToken (config D) (jsonwebtoken D) (now e)
                (String c token)) as [p|[]]; reflexivity.
  - rewrite E. reflexivity.
Qed.

(** X21: [authenticate] reads the text between [Bearer ] and the next
    space only: whatever follows that space, the outcome is the one of the
    header that ends with the token. *)
Theorem authenticate_reads_one_token (e : Env) (w : World)
    (token rest : string) :
  token <> "" -> all_chars not_space token = true ->
  authenticate D e (Some ("Bearer " ++ token ++ String " " rest)) w
  = authenticate D e (Some ("Bearer " ++ token)) w.
Proof.
  intros N H.
  destruct (authenticate_bearer D e w token rest N H) as [R1 R2].
  now rewrite R1, R2.
Qed.

(** X22: [authenticate] either calls [next] with an identity or
    answers with status 401, whatever the header, and leaves the world as
    it was. *)
Theorem authenticate_rejects_with_401 (e : Env) (w : World)
    (header : field) :
  fst (authenticate D e header w) = w
  /\ ((exists user, snd (authenticate D e header w) = Next user)
      \/ exists message,
           snd (authenticate D e header w)
           = Sent (errorResponse message 401)).
Proof.
  split; [reflexivity|]. unfold authenticate. cbn [snd].
  destruct (negb (truthy header)); [right; eauto|].
  destruct (negb (startsWith (str header) "Bearer ")); [right; eauto|].
  cbv zeta.
  destruct (negb (truthy (index (split " " (str header)) 1)));
    [right; eauto|].
  destruct (Jwt.verifyAccessToken _ _ _ _) as [p|[]]; eauto.
Qed.

Lemma login_access_token (e : Env) (w : World) (email password : field)
    (token : string) :
  get_access_token (snd (login D e email password w)) = Some token ->
  exists user,
    user_by_email (db w) (toLowerCase (str email)) = Some user
    /\ token = Jwt.generateAccessToken (config D) (jsonwebtoken D) (now e)
                 {| id := u_id user; email := u_email user |}.
Proof.
  unfold login. run_handler. repeat branch; simpl; try discriminate.
  intros H. injection H as <-. eauto.
Qed.

(** X23: when jsonwebtoken verifies the token it signed for an
    account, the access token of a successful login, sent as
    [Bearer <token>], passes [authenticate] with the id and the email of
    the account the login found. *)
Theorem login_then_authenticate (e1 e2 : Env) (w w2 : World)
    (email password : field) (token : string) :
  get_access_token (snd (login D e1 email password w)) = Some token ->
  token <> "" -> all_chars not_space token = true ->
  (forall user,
      user_by_email (db w) (toLowerCase (str email)) = Some user ->
      Jwt.verify (jsonwebtoken D)
        (Jwt.sign (jsonwebtoken D)
           {| id := u_id user; email := u_email user |}
           (Jwt.secret (config D)) (Jwt.expiresIn (config D)) (now e1))
        (Jwt.secret (config D)) (now e2)
      = Jwt.Decoded {| id := u_id user; email := u_email user |}) ->
  exists user,
    user_by_email (db w) (toLowerCase (str email)) = Some user
    /\ authenticate D e2 (Some ("Bearer " ++ token)) w2
       = (w2, Next {| id := u_id user; email := u_email user |}).
Proof.
  intros H N S Law.
  destruct (login_access_token _ _ _ _ _ H) as (user & F & ->).
  exists user. split; [exact F|].
  destruct (authenticate_bearer D e2 w2 _ "" N S) as [R _]. rewrite R.
  unfold Jwt.verifyAccessToken, Jwt.generateAccessToken.
  rewrite (Law user F). reflexivity.
Qed.

End MoreGuard.

Section ErrorHandler.

(** X24: the global error handler answers an error named
    TokenExpiredError with 401 "Token expired" and one named
    JsonWebTokenError with 401 "Invalid token", whatever status, code and
    message the error carries; and the body has a stack exactly when the
    environment is "development". *)
Theorem errorHandler_token_errors (nodeEnv : string) (err : ErrorObject) :
  (err_name err = Some "TokenExpiredError" ->
   fst (errorHandler nodeEnv err) = 401%Z
   /\ body_message (snd (errorHandler nodeEnv err)) = Some "Token expired")
  /\ (err_name err = Some "JsonWebTokenError" ->
      fst (errorHandler nodeEnv err) = 401%Z
      /\ body_message (snd (errorHandler nodeEnv err)) = Some "Invalid token")
  /\ (body_stack (snd (errorHandler nodeEnv err)) <> None
      <-> nodeEnv = "development").
Proof.
  unfold errorHandler. split; [|split].
  - intros ->. simpl.
    destruct (field_is (err_code err) "P2002"),
      (field_is (err_code err) "P2025"); split; reflexivity.
  - intros ->. simpl.
    destruct (field_is (err_code err) "P2002"),
      (field_is (err_code err) "P2025"); split; reflexivity.
  - destruct (field_is (err_code err) "P2002"),
      (field_is (err_code err) "P2025"),
      (field_is (err_name err) "ValidationError"),
      (field_is (err_name err) "JsonWebTokenError"),
      (field_is (err_name err) "TokenExpiredError"); simpl;
      destruct (String.eqb_spec nodeEnv "development");
      split; intros; congruence.
Qed.

Lemma field_is_other (x : field) (s : string) :
  x <> Some s -> field_is x s = false.
Proof.
  destruct x as [v|]; simpl; [|reflexivity].
  intros N. apply String.eqb_neq. congruence.
Qed.

(** X11: an error that is not named ValidationError, JsonWebTokenError
    or TokenExpiredError is answered by its code: the code P2002 (a unique
    constraint of the store) with 409 "A record with this value already
    exists" and the code P2025 (no such record) with 404 "Record not
    found", whatever status and message the error carries; with any other
    code, or none, it is answered with its own [statusCode] (500 when that
    is absent or 0) and its own message ("Internal Server Error" when that
    is absent or empty). *)
Theorem errorHandler_store_errors (nodeEnv : string) (err : ErrorObject) :
  err_name err <> Some "ValidationError" ->
  err_name err <> Some "JsonWebTokenError" ->
  err_name err <> Some "TokenExpiredError" ->
  (err_code err = Some "P2002" ->
   fst (errorHandler nodeEnv err) = 409%Z
   /\ body_message (snd (errorHandler nodeEnv err))
      = Some "A record with this value already exists")
  /\ (err_code err = Some "P2025" ->
      fst (errorHandler nodeEnv err) = 404%Z
      /\ body_message (snd (errorHandler nodeEnv err))
         = Some "Record not found")
  /\ (err_code err <> Some "P2002" -> err_code err <> Some "P2025" ->
      fst (errorHandler nodeEnv err) = number_or (err_statusCode err) 500
      /\ body_message (snd (errorHandler nodeEnv err))
         = if truthy (err_message err) then err_message err
           else Some "Internal Server Error").
Proof.
  intros NV NJ NT. unfold errorHandler.
  rewrite (field_is_other _ _ NV), (field_is_other _ _ NJ),
    (field_is_other _ _ NT).
  split; [|split].
  - intros ->. split; reflexivity.
  - intros ->. split; reflexivity.
  - intros N2 N5.
    rewrite (field_is_other _ _ N2), (field_is_other _ _ N5).
    split; reflexivity.
Qed.

End ErrorHandler.

(* ===================================================================== *)
(** * More of the code, on the toy store *)
(* ===================================================================== *)

(** X3 at the toy configuration: a lifetime of seven days, from the clock
    reading 1000. *)
Lemma refresh_token_outlives_issue_witness :
  Jwt.getRefreshTokenExpiry (config Toy.deps) 1000 = 604801000%Z
  /\ (1000 <= Jwt.getRefreshTokenExpiry (config Toy.deps) 1000)%Z.
Proof.
  split; [reflexivity|].
  apply (proj1 (refresh_token_outlives_issue (config Toy.deps) 1000
                  ltac:(vm_compute; discriminate)
                  ltac:(vm_compute; split; discriminate))).
Defined.

(** X4 from the empty store: the constraints hold after the register and
    the session that follows. *)
Lemma serve_keeps_constraints_witness :
  constraints (db Toy.start)
  /\ constraints (db (serve Toy.deps Toy.session Toy.registered)).
Proof.
  split; [exact constraints_empty|].
  apply (serve_keeps_constraints Toy.deps
           ((Toy.env 1000 "1",
             Register (Some "user@x.com") (Some "password1") None None)
            :: Toy.session)
           Toy.start).
  exact constraints_empty.
Defined.

Lemma normalised_empty : normalised Prisma.empty.
Proof. intros u []. Qed.

(** X6 from the empty store, with [USER@x.com] registered. *)
Lemma stored_emails_are_normalised_witness :
  normalised (db Toy.start)
  /\ normalised (db (serve Toy.deps Toy.session Toy.registered)).
Proof.
  split; [exact normalised_empty|].
  apply (stored_emails_are_normalised Toy.deps
           ((Toy.env 1000 "1",
             Register (Some "USER@x.com") (Some "password1") None None)
            :: Toy.session)
           Toy.start).
  exact normalised_empty.
Defined.

(** X7 at the toy store: the token the login at 1500 hands out. *)
Lemma issued_token_is_stored_witness :
  get_outcome_token
    (snd (handle Toy.deps (Toy.env 1500 "2")
            (Login (Some "user@x.com") (Some "password1")) Toy.registered))
  = Some "token-2"
  /\ exists owner,
       In owner (users (db Toy.two_devices))
       /\ token_by_value (db Toy.two_devices) "token-2"
          = Some (token_row (Toy.env 1500 "2") "token-2" (u_id owner)
                    604801500).
Proof.
  split; [reflexivity|].
  exact (proj2 (issued_token_is_stored Toy.deps (Toy.env 1500 "2")
                  (Login (Some "user@x.com") (Some "password1"))
                  Toy.registered "token-2" eq_refl)).
Defined.

Lemma fresh_for_registered : fresh_for (Toy.env 1500 "2") (db Toy.registered).
Proof.
  intros t [<-|[]]. split; discriminate.
Defined.

(** X8 at the toy store: registered as [user@x.com], logged in as
    [USER@X.COM]. *)
Lemma register_then_login_witness :
  is_success
    (snd (register Toy.deps (Toy.env 1000 "1") (Some "user@x.com")
            (Some "password1") None None Toy.start)) = true
  /\ snd (login Toy.deps (Toy.env 1500 "2") (Some "USER@X.COM")
            (Some "password1") Toy.registered)
     = Sent (successResponse
               (auth_data (select public_user_keys Toy.alice_row)
                  "jwt:u1" "token-2")
               "Login successful" None).
Proof.
  split; [reflexivity|].
  exact (register_then_login Toy.deps (Toy.env 1000 "1") (Toy.env 1500 "2")
           Toy.start (Some "user@x.com") (Some "password1") None None
           "USER@X.COM" eq_refl eq_refl eq_refl eq_refl fresh_for_registered).
Defined.

(** X9 at the toy store. *)
Lemma register_then_getMe_witness :
  getMe Toy.alice Toy.registered
  = ({| db := db Toy.registered;
        log := (log Toy.registered ++ [UserFindUniqueById "u1"])%list |},
     Sent (successResponse
             (JsObject
                [("user",
                  select (public_user_keys ++ ["updatedAt"]) Toy.alice_row)])
             "User profile retrieved" None)).
Proof.
  exact (register_then_getMe Toy.deps (Toy.env 1000 "1") Toy.start
           (Some "user@x.com") (Some "password1") None None eq_refl).
Defined.

(** X10 at the toy store: [bob@x.com] registers with a uuid that is taken;
    the account stays without a token, and the second try is answered 409. *)
Lemma register_error_leaves_account_witness :
  snd (register Toy.deps Scenario.clashing (Some "bob@x.com")
         (Some "password2") None None Toy.registered)
  = NextError P2002
  /\ map u_email
       (users (db (fst (register Toy.deps Scenario.clashing
                          (Some "bob@x.com") (Some "password2") None None
                          Toy.registered))))
     = ["user@x.com"; "bob@x.com"]
  /\ snd (register Toy.deps (Toy.env 3000 "3") (Some "bob@x.com")
            (Some "password2") None None
            (fst (register Toy.deps Scenario.clashing (Some "bob@x.com")
                    (Some "password2") None None Toy.registered)))
     = Sent (errorResponse "User with this email already exists" 409).
Proof.
  split; [reflexivity|]. split; [reflexivity|].
  destruct (register_error_leaves_account Toy.deps Scenario.clashing
              Toy.registered (Some "bob@x.com") (Some "password2") None None
              P2002 ltac:(vm_compute; discriminate)
              ltac:(vm_compute; split; discriminate) eq_refl)
    as [Same|(_ & _ & Again)].
  - discriminate Same.
  - exact (Again (Toy.env 3000 "3")).
Defined.

(** X11 on the error of a rotation that hits the unique constraint, and
    on an error without a code. *)
Lemma errorHandler_store_errors_witness :
  snd (handle Toy.deps (Toy.env 2000 "2") (Refresh (Some "token-1"))
         Toy.two_devices)
  = NextError P2002
  /\ fst (errorHandler "production"
            (error_object (Some "Unique constraint failed") None P2002))
     = 409%Z
  /\ body_message
       (snd (errorHandler "production"
               (error_object (Some "Unique constraint failed") None P2002)))
     = Some "A record with this value already exists"
  /\ fst (errorHandler "production"
            (error_object (Some "Cannot read properties") None TypeError))
     = 500%Z
  /\ body_message
       (snd (errorHandler "production"
               (error_object (Some "Cannot read properties") None
                  TypeError)))
     = Some "Cannot read properties".
Proof.
  split; [reflexivity|].
  destruct (errorHandler_store_errors "production"
              (error_object (Some "Unique constraint failed") None P2002)
              ltac:(discriminate) ltac:(discriminate) ltac:(discriminate))
    as (Conflict & _ & _).
  destruct (errorHandler_store_errors "production"
              (error_object (Some "Cannot read properties") None TypeError)
              ltac:(discriminate) ltac:(discriminate) ltac:(discriminate))
    as (_ & _ & Other).
  destruct (Conflict eq_refl) as [St Msg].
  destruct (Other ltac:(discriminate) ltac:(discriminate)) as [St' Msg'].
  exact (conj St (conj Msg (conj St' Msg'))).
Defined.

(** X12 at the toy store: a login with a wrong password. *)
Lemma error_responses_leave_the_store_witness :
  snd (handle Toy.deps (Toy.env 2000 "2")
         (Login (Some "user@x.com") (Some "password2")) Toy.registered)
  = Sent (errorResponse "Invalid email or password" 401)
  /\ db (fst (handle Toy.deps (Toy.env 2000 "2")
                (Login (Some "user@x.com") (Some "password2"))
                Toy.registered))
     = db Toy.registered.
Proof.
  split; [reflexivity|].
  destruct (error_responses_leave_the_store Toy.deps (Toy.env 2000 "2")
              (Login (Some "user@x.com") (Some "password2")) Toy.registered
              "Invalid email or password" 401%Z eq_refl)
    as [Same|[Expired _]].
  - exact Same.
  - discriminate Expired.
Defined.

(** X13 at the suspended account: the right and a wrong password. *)
Lemma login_refuses_inactive_account_witness :
  user_by_email (db Scenario.suspended) (toLowerCase "User@x.com")
  = Some Scenario.suspended_row
  /\ snd (login Toy.deps (Toy.env 2000 "2") (Some "User@x.com")
            (Some "password1") Scenario.suspended)
     = Sent (errorResponse "Account is deactivated" 403)
  /\ snd (login Toy.deps (Toy.env 2000 "2") (Some "User@x.com")
            (Some "wrong-password") Scenario.suspended)
     = Sent (errorResponse "Account is deactivated" 403).
Proof.
  split; [reflexivity|]. split.
  - exact (f_equal snd
             (login_refuses_inactive_account Toy.deps (Toy.env 2000 "2")
                Scenario.suspended "User@x.com" "password1"
                Scenario.suspended_row ltac:(discriminate)
                ltac:(discriminate) eq_refl eq_refl)).
  - exact (f_equal snd
             (login_refuses_inactive_account Toy.deps (Toy.env 2000 "2")
                Scenario.suspended "User@x.com" "wrong-password"
                Scenario.suspended_row ltac:(discriminate)
                ltac:(discriminate) eq_refl eq_refl)).
Defined.

(** X14 at the suspended account. *)
Lemma refresh_spares_token_of_inactive_owner_witness :
  token_by_value (db Scenario.suspended) "token-1" = Some Toy.token1
  /\ refreshToken Toy.deps (Toy.env 2000 "2") (Some "token-1")
       Scenario.suspended
     = ({| db := db Scenario.suspended;
           log := [RefreshTokenFindUnique "token-1"] |},
        Sent (errorResponse "Account is deactivated" 403)).
Proof.
  split; [reflexivity|].
  exact (refresh_spares_token_of_inactive_owner Toy.deps (Toy.env 2000 "2")
           Scenario.suspended "token-1" Toy.token1 Scenario.suspended_row
           ltac:(discriminate) eq_refl ltac:(vm_compute; discriminate)
           eq_refl eq_refl).
Defined.

(** X15 at the toy store: [token-1] expires at 604801000; one millisecond
    later it is expired, at 604801000 it is not. *)
Lemma refresh_expiry_boundary_witness :
  rt_expiresAt Toy.token1 = 604801000%Z
  /\ snd (refreshToken Toy.deps (Toy.env 604801001 "2") (Some "token-1")
            Toy.registered)
     = Sent (errorResponse "Refresh token has expired" 401)
  /\ is_success
       (snd (refreshToken Toy.deps (Toy.env 604801000 "2") (Some "token-1")
               Toy.registered)) = true.
Proof.
  split; [reflexivity|]. split; [|reflexivity].
  apply (proj2 (refresh_expiry_boundary Toy.deps (Toy.env 604801001 "2")
                  Toy.registered "token-1" Toy.token1
                  ltac:(discriminate) eq_refl)).
  vm_compute. reflexivity.
Defined.

(** X16 with two devices: a rotation with a free uuid and id, and one that
    draws those of the other device. *)
Lemma refresh_succeeds_iff_no_clash_witness :
  is_success
    (snd (refreshToken Toy.deps (Toy.env 2000 "3") (Some "token-1")
            Toy.two_devices)) = true
  /\ snd (refreshToken Toy.deps (Toy.env 2000 "2") (Some "token-1")
            Toy.two_devices)
     = NextError P2002.
Proof.
  split.
  - apply (proj1 (refresh_succeeds_iff_no_clash Toy.deps (Toy.env 2000 "3")
                    Toy.two_devices "token-1" Toy.token1 Toy.alice_row
                    ltac:(discriminate) eq_refl
                    ltac:(vm_compute; discriminate) eq_refl eq_refl
                    ltac:(vm_compute; discriminate)
                    ltac:(vm_compute; split; discriminate))).
    intros t [<-|[<-|[]]] N; [now destruct N | split; discriminate].
  - apply (proj2 (refresh_succeeds_iff_no_clash Toy.deps (Toy.env 2000 "2")
                    Toy.two_devices "token-1" Toy.token1 Toy.alice_row
                    ltac:(discriminate) eq_refl
                    ltac:(vm_compute; discriminate) eq_refl eq_refl
                    ltac:(vm_compute; discriminate)
                    ltac:(vm_compute; split; discriminate))).
    exists (token_row (Toy.env 1500 "2") "token-2" "u1" 604801500).
    split; [right; left; reflexivity|].
    split; [discriminate | left; reflexivity].
Defined.

Lemma unique_token_ids_two_devices : unique_token_ids (db Toy.two_devices).
Proof.
  repeat constructor; simpl; intuition discriminate.
Defined.

(** X17 with two devices. *)
Lemma rotation_keeps_session_count_witness :
  List.length (refreshTokens (db Toy.two_devices)) = 2
  /\ List.length
       (refreshTokens
          (db (fst (refreshToken Toy.deps (Toy.env 2000 "3")
                      (Some "token-1") Toy.two_devices)))) = 2.
Proof.
  split; [reflexivity|].
  exact (rotation_keeps_session_count Toy.deps (Toy.env 2000 "3")
           (Some "token-1") Toy.two_devices unique_token_ids_two_devices
           eq_refl).
Defined.

(** X18 with two devices. *)
Lemma logout_spares_other_tokens_witness :
  token_by_value (db (fst (logout (Some "token-1") Toy.two_devices)))
    "token-2"
  = token_by_value (db Toy.two_devices) "token-2"
  /\ token_by_value (db Toy.two_devices) "token-2"
     = Some (token_row (Toy.env 1500 "2") "token-2" "u1" 604801500).
Proof.
  split; [|reflexivity].
  exact (logout_spares_other_tokens "token-1" "token-2" Toy.two_devices
           ltac:(discriminate) ltac:(discriminate)).
Defined.

(** X19 with two devices: both tokens go, and [token-2] is no longer
    accepted. *)
Lemma logoutAll_revokes_every_session_witness :
  refreshTokens (db (fst (logoutAll Toy.alice Toy.two_devices))) = []
  /\ snd (refreshToken Toy.deps (Toy.env 2000 "3") (Some "token-2")
            (fst (logoutAll Toy.alice Toy.two_devices)))
     = Sent (errorResponse "Invalid refresh token" 401).
Proof.
  split; [reflexivity|].
  destruct (logoutAll_revokes_every_session Toy.deps Toy.alice
              Toy.two_devices) as (_ & _ & _ & _ & Revoked).
  apply (Revoked "token-2"
           (token_row (Toy.env 1500 "2") "token-2" "u1" 604801500)
           [] (Toy.env 2000 "3")).
  - repeat constructor; simpl; intuition discriminate.
  - discriminate.
  - reflexivity.
  - reflexivity.
  - constructor.
Defined.

(** X20 at the toy tokens: a good token, and the header [Bearer ] with no
    token. *)
Lemma optionalAuth_agrees_with_authenticate_witness :
  snd (optionalAuth Toy.deps (Toy.env 2000 "2") (Some "Bearer good")
         Toy.registered)
  = Identified Toy.alice
  /\ identity_of
       (snd (optionalAuth Toy.deps (Toy.env 2000 "2") (Some "Bearer ")
               Toy.registered))
     = granted
         (snd (authenticate Toy.deps (Toy.env 2000 "2") (Some "Bearer ")
                 Toy.registered)).
Proof.
  split; [reflexivity|].
  exact (proj2 (optionalAuth_agrees_with_authenticate Toy.deps
                  (Toy.env 2000 "2") Toy.registered (Some "Bearer ")
                  (ex_intro _ JsonWebTokenError eq_refl))).
Defined.

(** X21 at the toy tokens. *)
Lemma authenticate_reads_one_token_witness :
  authenticate Toy.deps (Toy.env 2000 "2") (Some "Bearer good and more")
    Toy.registered
  = authenticate Toy.deps (Toy.env 2000 "2") (Some "Bearer good")
      Toy.registered.
Proof.
  exact (authenticate_reads_one_token Toy.deps (Toy.env 2000 "2")
           Toy.registered "good" "and more" ltac:(discriminate) eq_refl).
Defined.

(** X23 with a jsonwebtoken that signs [good]. *)
Lemma login_then_authenticate_witness :
  get_access_token
    (snd (login Scenario.deps (Toy.env 1500 "2") (Some "user@x.com")
            (Some "password1") Toy.registered))
  = Some "good"
  /\ exists user,
       user_by_email (db Toy.registered) (toLowerCase "user@x.com")
       = Some user
       /\ authenticate Scenario.deps (Toy.env 1600 "3") (Some "Bearer good")
            Toy.start
          = (Toy.start, Next {| id := u_id user; email := u_email user |}).
Proof.
  split; [reflexivity|].
  apply (login_then_authenticate Scenario.deps (Toy.env 1500 "2")
           (Toy.env 1600 "3") Toy.registered Toy.start
           (Some "user@x.com") (Some "password1") "good" eq_refl
           ltac:(discriminate) eq_refl).
  intros user F. vm_compute in F. injection F as <-. reflexivity.
Defined.
